(** * Gate-entry validation service: a shallow embedding of [server.js]

    The repository ships two deployed variants of the same Express service
    (the two halves of [src/server.js]).  The helpers [writeLog], [readLog],
    [sendToTargetAPI] and [isPermitExpired] are the same code in both; the
    SOAP normalizer and the [/api/gate/validate] handler differ and live in
    the modules [V1] and [V2] below.

    Modelling choices, all visible in the definitions:
    - a JavaScript value is a [jsval]; objects keep their own properties in
      insertion order; numbers are integers (the program only tests them for
      truthiness and strict equality); a string is the sequence of the
      bytes of its UTF-8 encoding, and what the program computes from a
      string (an upper or lower case, the first three characters) is only
      compared with ASCII literals;
    - handlers run in a state-and-exception monad over a [world]: the log
      directory, the number of clock readings made so far and the trace of
      externally visible effects;
    - whatever the program obtains from outside (the clock, [Date] parsing,
      [toISOString], the SOAP exchange followed by the xml2js parse, the
      outcome of the forwarding POST) is read from an [env];
    - a log file is represented by what [JSON.parse] makes of its text;
      [jsonify] is the composition [JSON.parse (JSON.stringify v)]; the
      file-system calls themselves ([existsSync], [readFileSync],
      [writeFileSync]) do not fail;
    - one request is run from start to end; interleavings of several
      requests at their [await] points are not modelled. *)

From Stdlib Require Import ZArith String Ascii List Lia.
From stdpp Require Import gmap strings list fin_maps pretty.

Local Open Scope string_scope.
Local Open Scope Z_scope.

(** ** JavaScript values *)

#[warnings="-register-all"]
Inductive jsval : Type :=
| VUndefined
| VNull
| VBool (b : bool)
| VNum (n : Z)
| VStr (s : string)
| VArr (items : list jsval)
| VObj (props : list (string * jsval)).

(** [ToBoolean]: the operand of [!], [&&], [||] and [if]. *)
Definition truthy (v : jsval) : bool :=
  match v with
  | VUndefined | VNull => false
  | VBool b => b
  | VNum n => negb (n =? 0)
  | VStr s => negb (String.eqb s EmptyString)
  | VArr _ | VObj _ => true
  end.

(** [a === b].  Arrays and objects are equal only to themselves; every
    comparison of the program is between a value of the request body and a
    value of another object graph (the SOAP record, or a literal), so two
    arrays or objects are never the same reference. *)
Definition strict_eq (a b : jsval) : bool :=
  match a, b with
  | VUndefined, VUndefined => true
  | VNull, VNull => true
  | VBool x, VBool y => Bool.eqb x y
  | VNum x, VNum y => x =? y
  | VStr x, VStr y => String.eqb x y
  | _, _ => false
  end.

Definition strict_ne (a b : jsval) : bool := negb (strict_eq a b).

(** ** Exceptions and results *)

Inductive exn : Type :=
| TypeError (msg : string)
| RequestError (msg : string).

(** [err.message] *)
Definition message (e : exn) : string :=
  match e with TypeError m | RequestError m => m end.

Inductive result (A : Type) : Type :=
| Ok (a : A)
| Throw (e : exn).
Arguments Ok {A} a.
Arguments Throw {A} e.

#[global] Instance result_fmap : FMap result :=
  fun A B f r => match r with Ok a => Ok (f a) | Throw e => Throw e end.

(** ** Objects *)

Fixpoint lookup_prop (k : string) (ps : list (string * jsval)) : option jsval :=
  match ps with
  | [] => None
  | (k', v) :: ps' => if String.eqb k k' then Some v else lookup_prop k ps'
  end.

(** [o.k] / [o[k]] for the property names the program reads (field names of
    the request and of the SOAP document, none of which an array, a string,
    a number or a boolean carries).  Reading a property of [undefined] or
    [null] throws. *)
Definition get_prop (o : jsval) (k : string) : result jsval :=
  match o with
  | VUndefined => Throw (TypeError ("Cannot read properties of undefined (reading '" +:+ k +:+ "')"))
  | VNull => Throw (TypeError ("Cannot read properties of null (reading '" +:+ k +:+ "')"))
  | VObj ps => Ok (default VUndefined (lookup_prop k ps))
  | VBool _ | VNum _ | VStr _ | VArr _ => Ok VUndefined
  end.

(** Defining or overwriting an own property: an existing key keeps its
    place, a new key goes last.  (JavaScript enumerates integer-like keys
    before the others; they are kept in insertion order here, and nothing
    below depends on where such a key stands.) *)
Fixpoint set_prop (k : string) (v : jsval) (ps : list (string * jsval))
  : list (string * jsval) :=
  match ps with
  | [] => [(k, v)]
  | (k', v') :: ps' =>
      if String.eqb k k' then (k, v) :: ps' else (k', v') :: set_prop k v ps'
  end.

(** The characters of a string, for a spread [...s]: one per byte, which is
    one per character on an ASCII string.  (No string reaches a spread in
    the handlers: a request body that [express.json] delivers is an object
    or an array.) *)
Fixpoint chars (s : string) : list jsval :=
  match s with
  | EmptyString => []
  | String c s' => VStr (String c EmptyString) :: chars s'
  end.

Definition indexed (l : list jsval) : list (string * jsval) :=
  imap (fun i x => (pretty i, x)) l.

(** The own enumerable properties copied by [...data]. *)
Definition own_props (data : jsval) : list (string * jsval) :=
  match data with
  | VObj ps => ps
  | VArr items => indexed items
  | VStr s => indexed (chars s)
  | VUndefined | VNull | VBool _ | VNum _ => []
  end.

(** [{ ...base, ...data }] where [base] are the literal's earlier properties. *)
Definition object_spread (base : list (string * jsval)) (data : jsval) : jsval :=
  VObj (fold_left (fun acc kv => set_prop kv.1 kv.2 acc) (own_props data) base).

(** ** JSON round trip

    [jsonify v] is [JSON.parse (JSON.stringify v)]: a property whose value
    is [undefined] is left out of its object, an [undefined] array element
    becomes [null]. *)
Fixpoint jsonify (v : jsval) : jsval :=
  match v with
  | VArr items =>
      VArr ((fix elems (l : list jsval) : list jsval :=
               match l with
               | [] => []
               | VUndefined :: l' => VNull :: elems l'
               | x :: l' => jsonify x :: elems l'
               end) items)
  | VObj props =>
      VObj ((fix fields (l : list (string * jsval)) : list (string * jsval) :=
               match l with
               | [] => []
               | (_, VUndefined) :: l' => fields l'
               | (k, x) :: l' => (k, jsonify x) :: fields l'
               end) props)
  | _ => v
  end.

(** ** Environment and world *)

(** What is in a file of the log directory, as [JSON.parse] sees its text. *)
Inductive fcontent : Type :=
| FEmpty                (* the empty text *)
| FJson (v : jsval)     (* a text that parses to [v] *)
| FGarbage.             (* a text on which [JSON.parse] throws *)

Inductive effect : Type :=
| EWrite (file : string) (entry : jsval)     (* fs.writeFileSync after a push *)
| ESoap (permitNumber : jsval)               (* axios.post(SOAP_URL, ...) *)
| EPost (payload : jsval)                    (* axios.post(DUMMY_TARGET_API, ...) *)
| EEmit (event : string) (payload : jsval).  (* io.emit *)

Record env : Type := {
  clock : nat -> Z;                     (* the n-th [new Date()], ms since epoch *)
  iso_string : Z -> string;             (* [toISOString] *)
  date_value : jsval -> option Z;       (* time value of [new Date(v)]; [None] is NaN *)
  soap_exchange : jsval -> result jsval;(* xml2js parse of the SOAP reply *)
  post_outcome : jsval -> option string (* [Some m]: the POST failed with message [m] *)
}.

Record world : Type := {
  files : gmap string fcontent;
  ticks : nat;
  trace : list effect
}.

(** ** The monad *)

Definition M (A : Type) : Type := world -> result A * world.

Definition ret {A} (a : A) : M A := fun w => (Ok a, w).
Definition throw {A} (e : exn) : M A := fun w => (Throw e, w).
Definition bind {A B} (m : M A) (k : A -> M B) : M B :=
  fun w => match m w with
           | (Ok a, w') => k a w'
           | (Throw e, w') => (Throw e, w')
           end.
(** [try { m } catch (err) { h err }] *)
Definition try_catch {A} (m : M A) (h : exn -> M A) : M A :=
  fun w => match m w with
           | (Ok a, w') => (Ok a, w')
           | (Throw e, w') => h e w'
           end.
Definition lift {A} (r : result A) : M A := fun w => (r, w).

Notation "x <- m ;; k" := (bind m (fun x => k))
  (at level 90, m at level 80, right associativity).
Notation "m ;;; k" := (bind m (fun _ => k))
  (at level 90, right associativity).

Definition log_effect (e : effect) : M unit :=
  fun w => (Ok tt, {| files := files w; ticks := ticks w; trace := trace w ++ [e] |}).

Section Helpers.
Variable E : env.

(** [new Date()] *)
Definition newDate : M Z :=
  fun w => (Ok (clock E (ticks w)),
            {| files := files w; ticks := S (ticks w); trace := trace w |}).

(** [new Date().toISOString()] *)
Definition nowISO : M jsval :=
  t <- newDate ;; ret (VStr (iso_string E t)).

(** *** Log helpers *)

(** The [try] block of [writeLog] and the whole of [readLog]: the parsed
    content of the file if it exists and its text is not empty, [[]] when
    the file is missing, empty, or does not parse. *)
Definition stored (c : option fcontent) : jsval :=
  match c with
  | Some (FJson v) => v
  | Some FEmpty | Some FGarbage | None => VArr []
  end.

Definition writeFileSync (file : string) (entry : jsval) (arr : jsval) : M unit :=
  fun w => (Ok tt,
            {| files := <[file := FJson (jsonify arr)]> (files w);
               ticks := ticks w;
               trace := trace w ++ [EWrite file entry] |}).

Definition readStored (file : string) : M jsval :=
  fun w => (Ok (stored (files w !! file)), w).

Definition writeLog (file : string) (data : jsval) : M unit :=
  arr <- readStored file ;;
  match arr with
  | VUndefined | VNull =>
      (* [arr.push] is read before its argument is built *)
      throw (TypeError "Cannot read properties of null (reading 'push')")
  | _ =>
      ts <- nowISO ;;
      let entry := object_spread [("timestamp", ts)] data in
      match arr with
      | VArr items => writeFileSync file entry (VArr (items ++ [entry]))
      | _ => throw (TypeError "arr.push is not a function")
      end
  end.

Definition readLog (file : string) : M jsval := readStored file.

(** *** Forwarding *)

Definition axios_post_target (payload : jsval) : M unit :=
  log_effect (EPost payload) ;;;
  match post_outcome E payload with
  | None => ret tt
  | Some m => throw (RequestError m)
  end.

Definition sendToTargetAPI (payload : jsval) : M unit :=
  writeLog "sent-to-api.log.json" payload ;;;
  try_catch (axios_post_target payload)
    (fun err =>
       writeLog "sent-to-api-error.log.json"
         (VObj [("error", VStr (message err)); ("payload", payload)])).

(** *** Expiry *)

Definition isPermitExpired (validTill : jsval) : M bool :=
  if negb (truthy validTill) then ret true
  else
    now <- newDate ;;
    ret match date_value E validTill with
        | Some permitDate => permitDate <? now
        | None => false
        end.

End Helpers.

(** ** HTTP responses *)

Record response : Type := { status : Z; body : jsval }.

(** [res.json(b)] and [res.status(c).json(b)] *)
Definition json (b : jsval) : response := {| status := 200; body := b |}.
Definition status_json (c : Z) (b : jsval) : response := {| status := c; body := b |}.

(** ** Strings *)

Definition lower_ascii (c : ascii) : ascii :=
  let n := nat_of_ascii c in
  if ((65 <=? n) && (n <=? 90))%nat then ascii_of_nat (n + 32) else c.
Definition upper_ascii (c : ascii) : ascii :=
  let n := nat_of_ascii c in
  if ((97 <=? n) && (n <=? 122))%nat then ascii_of_nat (n - 32) else c.

Fixpoint map_string (f : ascii -> ascii) (s : string) : string :=
  match s with
  | EmptyString => EmptyString
  | String c s' => String (f c) (map_string f s')
  end.

Definition toLowerCase : string -> string := map_string lower_ascii.

(** The upper case of the ligatures U+FB00 to U+FB06, by the last byte of
    their encoding. *)
Definition ligature (c : nat) : string :=
  match (c - 128)%nat with
  | 0%nat => "FF"
  | 1%nat => "FI"
  | 2%nat => "FL"
  | 3%nat => "FFI"
  | 4%nat => "FFL"
  | _ => "ST"
  end.

(** [s.toUpperCase()].  Besides a-z, the characters whose upper case is made
    of ASCII characters are mapped as Unicode's case conversion maps them:
    sharp s (bytes 195 159) to SS, dotless i (196 177) to I, long s
    (197 191) to S and the ligatures ff, fi, fl, ffi, ffl, st (239 172
    128..134) to their letters.  The upper case of every other non-ASCII
    character holds a non-ASCII character again; these are left as they
    are, so the result equals an ASCII string exactly when the JavaScript
    result does, which is all the program asks of it. *)
Fixpoint toUpperCase (s : string) : string :=
  match s with
  | EmptyString => EmptyString
  | String a rest =>
      let plain := String (upper_ascii a) (toUpperCase rest) in
      match rest with
      | EmptyString => plain
      | String b rest' =>
          let na := nat_of_ascii a in
          let nb := nat_of_ascii b in
          if ((na =? 195) && (nb =? 159))%nat then "SS" +:+ toUpperCase rest'
          else if ((na =? 196) && (nb =? 177))%nat then "I" +:+ toUpperCase rest'
          else if ((na =? 197) && (nb =? 191))%nat then "S" +:+ toUpperCase rest'
          else
            match rest' with
            | EmptyString => plain
            | String c rest'' =>
                let nc := nat_of_ascii c in
                if ((na =? 239) && (nb =? 172) && (128 <=? nc) && (nc <=? 134))%nat
                then ligature nc +:+ toUpperCase rest''
                else plain
            end
      end
  end.

(** The double quote, for the texts that hold one. *)
Definition dquote : string := String (ascii_of_nat 34) EmptyString.

(** The text of the callee of line 416 in V8's message. *)
Definition upper_callee : string :=
  "(client.gateType || " +:+ dquote +:+ dquote +:+ ").toUpperCase".

(** [s.includes(pat)] *)
Fixpoint includes (pat s : string) : bool :=
  String.prefix pat s ||
  match s with
  | EmptyString => false
  | String _ s' => includes pat s'
  end.

(** [v.m(...)] for a string method [m]: only a string has it.  [callee] is
    the text of [v.m] in the message of the TypeError. *)
Definition string_method (callee : string) (f : string -> string) (v : jsval)
  : result string :=
  match v with
  | VStr s => Ok (f s)
  | VUndefined | VNull =>
      Throw (TypeError ("Cannot read properties of undefined (reading '" +:+ callee +:+ "')"))
  | _ => Throw (TypeError (callee +:+ " is not a function"))
  end.

(** [a || b] *)
Definition js_or (a b : jsval) : jsval := if truthy a then a else b.

(** ** The SOAP document *)

Notation "x <-? r ;; k" :=
  (match r with Ok x => k | Throw e => Throw e end)
  (at level 90, r at level 80, right associativity).

(** [Object.keys(o)] *)
Definition object_keys (o : jsval) : result (list string) :=
  match o with
  | VUndefined | VNull => Throw (TypeError "Cannot convert undefined or null to object")
  | _ => Ok (map fst (own_props o))
  end.

(** [keys.find(k => k.toLowerCase().includes(word))], then used as a
    property key: when nothing is found the key is the string "undefined". *)
Definition find_key (word : string) (keys : list string) : string :=
  default "undefined" (List.find (fun k => includes word (toLowerCase k)) keys).

(** The common first half of [parseSoapResponse]: from the xml2js document
    to [EmptyTrailerOutput["tns:PermitDTLS"]]. *)
Definition permitDTLS (parsed : jsval) : result jsval :=
  ks <-? object_keys parsed ;;
  let envKey := find_key "envelope" ks in
  envelope <-? get_prop parsed envKey ;;
  ks' <-? object_keys envelope ;;
  let bodyKey := find_key "body" ks' in
  body <-? get_prop envelope bodyKey ;;
  output <-? get_prop body "EmptyTrailerOutput" ;;
  get_prop output "tns:PermitDTLS".

(** A literal [{ k1: d[n1], k2: d[n2], ... }]. *)
Fixpoint pick (d : jsval) (fields : list (string * string))
  : result (list (string * jsval)) :=
  match fields with
  | [] => Ok []
  | (k, n) :: rest =>
      v <-? get_prop d n ;;
      vs <-? pick d rest ;;
      Ok ((k, v) :: vs)
  end.

(** A mismatch detail with both values. *)
Definition detail (field : string) (client soap : jsval) : jsval :=
  VObj [("field", VStr field); ("client", client); ("soap", soap)].

(** ** Object literals shared by the two handlers *)

(** Body of the 422 response; [type] differs between the variants. *)
Definition invalid_response (type : string) (soapData : jsval) : response :=
  status_json 422
    (VObj [("success", VBool false); ("type", VStr type);
           ("message", VStr "Permit is expired"); ("soapData", soapData)]).

Definition matched_response (soapData : jsval) : response :=
  json (VObj [("success", VBool true); ("soapData", soapData)]).

(** [{ client, soapData, mismatches }] *)
Definition mismatch_payload (client soapData : jsval) (ms : list jsval) : jsval :=
  VObj [("client", client); ("soapData", soapData); ("mismatches", VArr ms)].

Definition mismatch_response (ms : list jsval) (soapData : jsval) : response :=
  status_json 409
    (VObj [("success", VBool false); ("mismatches", VArr ms);
           ("soapData", soapData)]).

(** The [catch] block of both handlers. *)
Definition error_response (err : exn) : response :=
  status_json 500 (VObj [("error", VStr (message err))]).

Definition error_entry (err : exn) : jsval :=
  VObj [("error", VStr (message err))].

(** ** First variant (manual confirmation, permit and container checks) *)

Module V1.
Section Service.
Variable E : env.

Definition parseSoapResponse (parsed : jsval) : result jsval :=
  d <-? permitDTLS parsed ;;
  ps <-? pick d [("permitNumber", "tns:PermitNumber");
                 ("containerNumber", "tns:ContainerNumber");
                 ("containerSize", "tns:ContainerSize");
                 ("containerType", "tns:ContainerType");
                 ("containerStatus", "tns:ContainerStatus");
                 ("vehicleNumber", "tns:VechileNumber");
                 ("slineCode", "tns:SlineCode");
                 ("lddMtFlag", "tns:LDD_MT_Flg")] ;;
  Ok (VObj ps).

Definition callSoapApi (permitNumber : jsval) : M jsval :=
  log_effect (ESoap permitNumber) ;;;
  parsed <- lift (soap_exchange E permitNumber) ;;
  lift (parseSoapResponse parsed).

(** Lines 193-199. *)
Definition permit_check (client soapData : jsval) : result (list jsval) :=
  cp <-? get_prop client "permitNumber" ;;
  sp <-? get_prop soapData "permitNumber" ;;
  Ok (if strict_ne cp sp then [detail "permitNumber" cp sp] else []).

(** Lines 201-210. *)
Definition container_check (client soapData : jsval) : result (list jsval) :=
  cc <-? get_prop client "containerNumber" ;;
  if truthy cc then
    sc <-? get_prop soapData "containerNumber" ;;
    Ok (if strict_ne cc sc then [detail "containerNumber" cc sc] else [])
  else Ok [].

(** Lines 191-210: the mismatch list. *)
Definition mismatches (client soapData : jsval) : result (list jsval) :=
  m1 <-? permit_check client soapData ;;
  m2 <-? container_check client soapData ;;
  Ok (m1 ++ m2)%list.

Definition invalid_payload (client soapData ts : jsval) : jsval :=
  VObj [("client", client); ("soapData", soapData);
        ("reason", VStr "PERMIT_EXPIRED"); ("timestamp", ts)].

Definition matched_payload (source : string) (client soapData ts : jsval) : jsval :=
  VObj [("source", VStr source); ("client", client);
        ("soapData", soapData); ("timestamp", ts)].

Definition manual_response : response :=
  json (VObj [("success", VBool true);
              ("message", VStr "Manually confirmed & sent")]).

(** Lines 172-240: everything after the lookup. *)
Definition respond (client soapData : jsval) : M response :=
  validTill <- lift (get_prop soapData "isPermitValidTill") ;;
  expired <- isPermitExpired E validTill ;;
  if expired then
    ts <- nowISO E ;;
    let payload := invalid_payload client soapData ts in
    writeLog E "invalid.log.json" payload ;;;
    log_effect (EEmit "gate:invalid" payload) ;;;
    ret (invalid_response "INVALID_PERMIT" soapData)
  else
    ms <- lift (mismatches client soapData) ;;
    match ms with
    | [] =>
        ts <- nowISO E ;;
        let payload := matched_payload "soap" client soapData ts in
        writeLog E "matched.log.json" payload ;;;
        sendToTargetAPI E payload ;;;
        log_effect (EEmit "gate:matched" payload) ;;;
        ret (matched_response soapData)
    | _ :: _ =>
        let payload := mismatch_payload client soapData ms in
        writeLog E "mismatch.log.json" payload ;;;
        log_effect (EEmit "gate:mismatch" payload) ;;;
        ret (mismatch_response ms soapData)
    end.

(** Lines 150-167: the manual confirm flow. *)
Definition manual (client : jsval) : M response :=
  ts <- nowISO E ;;
  let payload := matched_payload "manual" client VNull ts in
  writeLog E "matched.log.json" payload ;;;
  sendToTargetAPI E payload ;;;
  log_effect (EEmit "gate:matched" payload) ;;;
  ret manual_response.

Definition on_error (err : exn) : M response :=
  writeLog E "error.log.json" (error_entry err) ;;;
  ret (error_response err).

(** [app.post("/api/gate/validate", ...)] with [client = req.body]. *)
Definition validate (client : jsval) : M response :=
  try_catch
    (writeLog E "incoming.log.json" (VObj [("body", client)]) ;;;
     confirmed <- lift (get_prop client "confirmedByUser") ;;
     if strict_eq confirmed (VBool true) then manual client
     else
       permitNumber <- lift (get_prop client "permitNumber") ;;
       soapData <- callSoapApi permitNumber ;;
       respond client soapData)
    on_error.

End Service.
End V1.

(** ** Second variant (no manual confirmation, vehicle and policy-gated
       container checks) *)

Module V2.
Section Service.
Variable E : env.

Definition parseSoapResponse (parsed : jsval) : result jsval :=
  d <-? permitDTLS parsed ;;
  ps <-? pick d [("permitNumber", "tns:PermitNumber");
                 ("containerNumber", "tns:ContainerNumber");
                 ("vehicleNumber", "tns:VechileNumber");
                 ("isPermitValidTill", "tns:IsPermitValid")] ;;
  Ok (VObj ps).

Definition callSoapApi (permitNumber : jsval) : M jsval :=
  log_effect (ESoap permitNumber) ;;;
  parsed <- lift (soap_exchange E permitNumber) ;;
  lift (parseSoapResponse parsed).

(** Lines 418-420: the policy, on the upper-cased gate type and the first
    three characters of the permit number. *)
Definition requireContainer (gateType prefix : string) : bool :=
  (String.eqb gateType "GATE_IN" && String.eqb prefix "PMA") ||
  (String.eqb gateType "GATE_OUT" &&
     existsb (String.eqb prefix) ["PMD"; "GPC"]).

Definition missing_vehicle : jsval :=
  VObj [("field", VStr "vehicleNumber");
        ("reason", VStr "Vehicle number missing from validate payload")].

(** Lines 414-420: whether this request's container must be checked. *)
Definition policy (client : jsval) : result bool :=
  cp <-? get_prop client "permitNumber" ;;
  let permit := js_or cp (VStr EmptyString) in
  prefix <-? string_method "permit.substring" (String.substring 0 3) permit ;;
  g <-? get_prop client "gateType" ;;
  gateType <-? string_method upper_callee toUpperCase
                 (js_or g (VStr EmptyString)) ;;
  Ok (requireContainer gateType prefix).

(** Lines 422-437. *)
Definition vehicle_check (client soapData : jsval) : result (list jsval) :=
  cv <-? get_prop client "vehicleNumber" ;;
  if negb (truthy cv) then Ok [missing_vehicle]
  else
    sv <-? get_prop soapData "vehicleNumber" ;;
    Ok (if truthy sv && strict_ne cv sv
        then [detail "vehicleNumber" cv sv] else []).

(** Lines 439-452. *)
Definition container_check (require : bool) (client soapData : jsval)
  : result (list jsval) :=
  if require then
    cc <-? get_prop client "containerNumber" ;;
    if truthy cc then
      sc <-? get_prop soapData "containerNumber" ;;
      Ok (if truthy sc && strict_ne cc sc
          then [detail "containerNumber" cc sc] else [])
    else Ok []
  else Ok [].

(** Lines 413-452: the mismatch list. *)
Definition mismatches (client soapData : jsval) : result (list jsval) :=
  require <-? policy client ;;
  m1 <-? vehicle_check client soapData ;;
  m2 <-? container_check require client soapData ;;
  Ok (m1 ++ m2)%list.

Definition invalid_payload (client soapData : jsval) : jsval :=
  VObj [("client", client); ("soapData", soapData);
        ("reason", VStr "PERMIT_EXPIRED")].

Definition matched_payload (client soapData : jsval) : jsval :=
  VObj [("source", VStr "soap"); ("client", client); ("soapData", soapData)].

(** Lines 394-476: everything after the lookup. *)
Definition respond (client soapData : jsval) : M response :=
  validTill <- lift (get_prop soapData "isPermitValidTill") ;;
  expired <- isPermitExpired E validTill ;;
  if expired then
    let payload := invalid_payload client soapData in
    writeLog E "invalid.log.json" payload ;;;
    log_effect (EEmit "gate:invalid" payload) ;;;
    ret (invalid_response "PERMIT_EXPIRED" soapData)
  else
    ms <- lift (mismatches client soapData) ;;
    match ms with
    | [] =>
        let payload := matched_payload client soapData in
        writeLog E "matched.log.json" payload ;;;
        sendToTargetAPI E payload ;;;
        log_effect (EEmit "gate:matched" payload) ;;;
        ret (matched_response soapData)
    | _ :: _ =>
        let payload := mismatch_payload client soapData ms in
        writeLog E "mismatch.log.json" payload ;;;
        log_effect (EEmit "gate:mismatch" payload) ;;;
        ret (mismatch_response ms soapData)
    end.

Definition on_error (err : exn) : M response :=
  writeLog E "error.log.json" (error_entry err) ;;;
  ret (error_response err).

(** [app.post("/api/gate/validate", ...)] with [client = req.body]. *)
Definition validate (client : jsval) : M response :=
  try_catch
    (writeLog E "incoming.log.json" client ;;;
     permitNumber <- lift (get_prop client "permitNumber") ;;
     soapData <- callSoapApi permitNumber ;;
     respond client soapData)
    on_error.

End Service.
End V2.

(** ** Vocabulary of the statements *)

(** [JSON.stringify] of one array element. *)
Definition json_elem (x : jsval) : jsval :=
  match x with VUndefined => VNull | _ => jsonify x end.

(** The entries of a category, as [readLog] returns them. *)
Definition history (file : string) (w : world) : list jsval :=
  match stored (files w !! file) with
  | VArr items => items
  | _ => []
  end.

(** State invariant of the log directory: every file is missing, empty,
    unparsable, or holds a JSON array.  A JSON text parses to a value that
    [JSON.stringify] and [JSON.parse] give back unchanged. *)
Definition logs_wf (w : world) : Prop :=
  forall file, exists items,
    stored (files w !! file) = VArr items /\ jsonify (VArr items) = VArr items.

(** The entry that [writeLog] pushes when its clock reading is the [n]-th. *)
Definition entry_at (E : env) (n : nat) (data : jsval) : jsval :=
  object_spread [("timestamp", VStr (iso_string E (clock E n)))] data.

(** The world after a successful [writeLog file data]. *)
Definition appended (E : env) (file : string) (data : jsval) (w : world) : world :=
  {| files := <[file := FJson (VArr (history file w ++ [jsonify (entry_at E (ticks w) data)]))]>
                (files w);
     ticks := S (ticks w);
     trace := trace w ++ [EWrite file (entry_at E (ticks w) data)] |}.

Definition emitted (e : effect) (w : world) : world :=
  {| files := files w; ticks := ticks w; trace := trace w ++ [e] |}.

Definition ticked (w : world) : world :=
  {| files := files w; ticks := S (ticks w); trace := trace w |}.

Definition forward_error (m : string) (payload : jsval) : jsval :=
  VObj [("error", VStr m); ("payload", payload)].

(** The world after [sendToTargetAPI payload]. *)
Definition forwarded (E : env) (payload : jsval) (w : world) : world :=
  let w1 := emitted (EPost payload) (appended E "sent-to-api.log.json" payload w) in
  match post_outcome E payload with
  | None => w1
  | Some m => appended E "sent-to-api-error.log.json" (forward_error m payload) w1
  end.

(** A computation that leaves the log directory well formed, however it
    ends. *)
Definition preserves {A : Type} (m : M A) : Prop :=
  forall w r w', logs_wf w -> m w = (r, w') -> logs_wf w'.

(** A run of [writeLog] calls, one after the other, each with its file and
    its data. *)
Fixpoint writeLogs (E : env) (calls : list (string * jsval)) : M unit :=
  match calls with
  | [] => ret tt
  | (file, data) :: rest => writeLog E file data ;;; writeLogs E rest
  end.

(** What such a run adds to the category [c] when its first clock reading is
    the [n]-th: the entries of the calls to [c], in call order, each with
    the reading of its own call. *)
Fixpoint appended_to (E : env) (c : string) (n : nat) (calls : list (string * jsval))
  : list jsval :=
  match calls with
  | [] => []
  | (file, data) :: rest =>
      let later := appended_to E c (S n) rest in
      if String.eqb file c then jsonify (entry_at E n data) :: later else later
  end.

(** Whether a mismatch detail is about [field]. *)
Definition is_field (field : string) (d : jsval) : bool :=
  match get_prop d "field" with
  | Ok (VStr f) => String.eqb f field
  | _ => false
  end.

(** The validity indicator is absent, or resolves to a time before [now]. *)
Definition stale (E : env) (validTill : jsval) (now : Z) : Prop :=
  validTill = VUndefined \/
  exists t, date_value E validTill = Some t /\ t < now.

(** ** Concrete scenarios *)

Module Scenario.

(** The xml2js document of a reply whose [tns:PermitDTLS] element has the
    given children. *)
Definition reply (dtls : list (string * jsval)) : jsval :=
  VObj [("env:Envelope",
         VObj [("$", VObj [("xmlns:env",
                            VStr "http://schemas.xmlsoap.org/soap/envelope/")]);
               ("env:Header", VStr EmptyString);
               ("env:Body",
                VObj [("EmptyTrailerOutput",
                       VObj [("tns:PermitDTLS", VObj dtls)])])])].

(** An environment whose clock starts at 1000 ms and advances by one per
    reading, which knows two dates, one in the future and one in the
    past, and in which the forwarding POST fails (nothing listens on the
    dummy target). *)
Definition world_env (authority : jsval -> result jsval) : env :=
  {| clock := fun n => 1000 + Z.of_nat n;
     iso_string := fun t => pretty t;
     date_value := fun v =>
       match v with
       | VStr s => if String.eqb s "2999-12-31T00:00:00Z" then Some 5000
                   else if String.eqb s "1999-12-31T00:00:00Z" then Some 0
                   else None
       | _ => None
       end;
     soap_exchange := authority;
     post_outcome := fun _ => Some "connect ECONNREFUSED 127.0.0.1:6000" |}.

(** The log directory right after [mkdirSync]. *)
Definition fresh : world := {| files := ∅; ticks := 0; trace := [] |}.

(** An authority that knows one vehicle and answers with the permit
    number it was asked for, valid until [validTill]. *)
Definition echo (validTill : jsval) (permitNumber : jsval) : result jsval :=
  Ok (reply [("tns:PermitNumber", permitNumber);
             ("tns:ContainerNumber", VStr "CONT0000002");
             ("tns:VechileNumber", VStr "MH12AB1234");
             ("tns:IsPermitValid", validTill)]).

(** An authority whose record carries another permit number. *)
Definition renumbered (permitNumber : jsval) : result jsval :=
  Ok (reply [("tns:PermitNumber", VStr "PMA9999");
             ("tns:VechileNumber", VStr "MH12AB1234");
             ("tns:IsPermitValid", VStr "2999-12-31T00:00:00Z")]).

(** What the two normalizers make of [echo]'s reply. *)
Definition record1 (permitNumber : jsval) : jsval :=
  VObj [("permitNumber", permitNumber);
        ("containerNumber", VStr "CONT0000002");
        ("containerSize", VUndefined); ("containerType", VUndefined);
        ("containerStatus", VUndefined);
        ("vehicleNumber", VStr "MH12AB1234");
        ("slineCode", VUndefined); ("lddMtFlag", VUndefined)].

Definition record2 (validTill permitNumber : jsval) : jsval :=
  VObj [("permitNumber", permitNumber);
        ("containerNumber", VStr "CONT0000002");
        ("vehicleNumber", VStr "MH12AB1234");
        ("isPermitValidTill", validTill)].

Definition valid : env := world_env (echo (VStr "2999-12-31T00:00:00Z")).
Definition lapsed : env := world_env (echo (VStr "1999-12-31T00:00:00Z")).

Definition request_in : jsval :=
  VObj [("permitNumber", VStr "PMA1001"); ("gateType", VStr "GATE_IN");
        ("vehicleNumber", VStr "MH12AB1234")].

Definition request_out : jsval :=
  VObj [("permitNumber", VStr "PMD2002"); ("gateType", VStr "gate_out");
        ("vehicleNumber", VStr "MH12AB1234");
        ("containerNumber", VStr "CONT0000001")].

(** A request whose prefix no policy row names, with a container. *)
Definition request_other : jsval :=
  VObj [("permitNumber", VStr "XYZ3003"); ("gateType", VStr "GATE_IN");
        ("vehicleNumber", VStr "MH12AB1234");
        ("containerNumber", VStr "CONT0000001")].

Definition request_no_vehicle : jsval :=
  VObj [("permitNumber", VStr "PMA1001"); ("gateType", VStr "GATE_IN")].

(** An inbound request whose gate type is written with U+0131, the dotless
    i, in place of the i. *)
Definition request_dotless : jsval :=
  VObj [("permitNumber", VStr "PMA1001");
        ("gateType",
         VStr ("gate_" +:+ String (ascii_of_nat 196) (String (ascii_of_nat 177) "n")));
        ("vehicleNumber", VStr "MH12AB1234");
        ("containerNumber", VStr "CONT0000001")].

Definition request_confirmed : jsval :=
  VObj [("permitNumber", VStr "PMA1001"); ("confirmedByUser", VBool true)].

(** Records of the second variant's normalizer: one without container
    number, one with. *)
Definition record_in : jsval :=
  VObj [("permitNumber", VStr "PMA1001"); ("containerNumber", VUndefined);
        ("vehicleNumber", VStr "MH12AB1234");
        ("isPermitValidTill", VStr "2999-12-31T00:00:00Z")].

Definition record_out : jsval :=
  VObj [("permitNumber", VStr "PMD2002");
        ("containerNumber", VStr "CONT0000002");
        ("vehicleNumber", VStr "MH12AB1234");
        ("isPermitValidTill", VStr "2999-12-31T00:00:00Z")].

End Scenario.

(** ** The query routes *)

(** The length of a string as [length] counts it, in UTF-16 code units: one
    for each character, two for a character of four bytes. *)
Fixpoint code_units (s : string) : nat :=
  match s with
  | EmptyString => 0%nat
  | String c s' =>
      let n := nat_of_ascii c in
      ((if (n <? 128) || (192 <=? n) then 1 else 0) +
       (if 240 <=? n then 1 else 0) + code_units s')%nat
  end.

(** [data.length] on what [readLog] returned. *)
Definition get_length (data : jsval) : result jsval :=
  match data with
  | VUndefined => Throw (TypeError "Cannot read properties of undefined (reading 'length')")
  | VNull => Throw (TypeError "Cannot read properties of null (reading 'length')")
  | VArr items => Ok (VNum (Z.of_nat (length items)))
  | VStr s => Ok (VNum (Z.of_nat (code_units s)))
  | VObj ps => Ok (default VUndefined (lookup_prop "length" ps))
  | VBool _ | VNum _ => Ok VUndefined
  end.

(** The body of the three [app.get] routes, which differ by the file. *)
Definition fetch (file : string) : M response :=
  data <- readLog file ;;
  count <- lift (get_length data) ;;
  ret (json (VObj [("success", VBool true); ("count", count); ("data", data)])).

(** [GET /api/gate/matched], [/api/gate/mismatch], [/api/gate/invalid] *)
Definition get_matched : M response := fetch "matched.log.json".
Definition get_mismatch : M response := fetch "mismatch.log.json".
Definition get_invalid : M response := fetch "invalid.log.json".

(** ** Whole requests *)

(** The effects of a run from [w] to [w']. *)
Definition effects_since (w w' : world) : list effect :=
  drop (length (trace w)) (trace w').

(** What [callSoapApi] returns: the normalizer applied to the exchange. *)
Definition lookup_with (parse : jsval -> result jsval) (E : env) (permitNumber : jsval)
  : result jsval :=
  parsed <-? soap_exchange E permitNumber ;; parse parsed.

(** The world after the [catch] block has logged [err]. *)
Definition failed (E : env) (err : exn) (w : world) : world :=
  appended E "error.log.json" (error_entry err) w.

(** The ways a request to the second variant ends, each with its response
    and its final world: one constructor per [return] of the handler, and
    one per place where the [try] block can throw. *)
Inductive outcome2 (E : env) (client : jsval) (w : world) : response -> world -> Prop :=
| Rejected2 err :
    get_prop client "permitNumber" = Throw err ->
    outcome2 E client w (error_response err)
      (failed E err (appended E "incoming.log.json" client w))
| Unavailable2 p err :
    get_prop client "permitNumber" = Ok p ->
    lookup_with V2.parseSoapResponse E p = Throw err ->
    outcome2 E client w (error_response err)
      (failed E err (emitted (ESoap p) (appended E "incoming.log.json" client w)))
| Expired2 p soapData v w2 :
    get_prop client "permitNumber" = Ok p ->
    lookup_with V2.parseSoapResponse E p = Ok soapData ->
    get_prop soapData "isPermitValidTill" = Ok v ->
    isPermitExpired E v (emitted (ESoap p) (appended E "incoming.log.json" client w))
    = (Ok true, w2) ->
    outcome2 E client w (invalid_response "PERMIT_EXPIRED" soapData)
      (emitted (EEmit "gate:invalid" (V2.invalid_payload client soapData))
         (appended E "invalid.log.json" (V2.invalid_payload client soapData) w2))
| Crashed2 p soapData v w2 err :
    get_prop client "permitNumber" = Ok p ->
    lookup_with V2.parseSoapResponse E p = Ok soapData ->
    get_prop soapData "isPermitValidTill" = Ok v ->
    isPermitExpired E v (emitted (ESoap p) (appended E "incoming.log.json" client w))
    = (Ok false, w2) ->
    V2.mismatches client soapData = Throw err ->
    outcome2 E client w (error_response err) (failed E err w2)
| Matched2 p soapData v w2 :
    get_prop client "permitNumber" = Ok p ->
    lookup_with V2.parseSoapResponse E p = Ok soapData ->
    get_prop soapData "isPermitValidTill" = Ok v ->
    isPermitExpired E v (emitted (ESoap p) (appended E "incoming.log.json" client w))
    = (Ok false, w2) ->
    V2.mismatches client soapData = Ok [] ->
    outcome2 E client w (matched_response soapData)
      (emitted (EEmit "gate:matched" (V2.matched_payload client soapData))
         (forwarded E (V2.matched_payload client soapData)
            (appended E "matched.log.json" (V2.matched_payload client soapData) w2)))
| Mismatched2 p soapData v w2 d ms :
    get_prop client "permitNumber" = Ok p ->
    lookup_with V2.parseSoapResponse E p = Ok soapData ->
    get_prop soapData "isPermitValidTill" = Ok v ->
    isPermitExpired E v (emitted (ESoap p) (appended E "incoming.log.json" client w))
    = (Ok false, w2) ->
    V2.mismatches client soapData = Ok (d :: ms) ->
    outcome2 E client w (mismatch_response (d :: ms) soapData)
      (emitted (EEmit "gate:mismatch" (mismatch_payload client soapData (d :: ms)))
         (appended E "mismatch.log.json" (mismatch_payload client soapData (d :: ms)) w2)).

(** The ways a request to the first variant ends. *)
Inductive outcome1 (E : env) (client : jsval) (w : world) : response -> world -> Prop :=
| Rejected1 err :
    get_prop client "confirmedByUser" = Throw err ->
    outcome1 E client w (error_response err)
      (failed E err (appended E "incoming.log.json" (VObj [("body", client)]) w))
| Manual1 :
    get_prop client "confirmedByUser" = Ok (VBool true) ->
    let w0 := appended E "incoming.log.json" (VObj [("body", client)]) w in
    let payload :=
      V1.matched_payload "manual" client VNull
        (VStr (iso_string E (clock E (ticks w0)))) in
    outcome1 E client w V1.manual_response
      (emitted (EEmit "gate:matched" payload)
         (forwarded E payload (appended E "matched.log.json" payload (ticked w0))))
| Unavailable1 c p err :
    get_prop client "confirmedByUser" = Ok c ->
    c <> VBool true ->
    get_prop client "permitNumber" = Ok p ->
    lookup_with V1.parseSoapResponse E p = Throw err ->
    outcome1 E client w (error_response err)
      (failed E err
         (emitted (ESoap p)
            (appended E "incoming.log.json" (VObj [("body", client)]) w)))
| Expired1 c p soapData :
    get_prop client "confirmedByUser" = Ok c ->
    c <> VBool true ->
    get_prop client "permitNumber" = Ok p ->
    lookup_with V1.parseSoapResponse E p = Ok soapData ->
    let w1 :=
      emitted (ESoap p)
        (appended E "incoming.log.json" (VObj [("body", client)]) w) in
    let payload :=
      V1.invalid_payload client soapData (VStr (iso_string E (clock E (ticks w1)))) in
    outcome1 E client w (invalid_response "INVALID_PERMIT" soapData)
      (emitted (EEmit "gate:invalid" payload)
         (appended E "invalid.log.json" payload (ticked w1))).

(** The mismatch list that a response reports: [body.mismatches], and no
    detail when the body has no such array. *)
Definition reported (r : response) : list jsval :=
  match get_prop (body r) "mismatches" with
  | Ok (VArr ms) => ms
  | _ => []
  end.

(** The events emitted, the payloads forwarded and the permit numbers asked
    of the authority, in a list of effects. *)
Definition emitted_events (l : list effect) : list (string * jsval) :=
  omap (fun e => match e with EEmit n p => Some (n, p) | _ => None end) l.

Definition forwards (l : list effect) : list jsval :=
  omap (fun e => match e with EPost p => Some p | _ => None end) l.

Definition soap_requests (l : list effect) : list jsval :=
  omap (fun e => match e with ESoap p => Some p | _ => None end) l.

(** The event and the log file that go with a response status. *)
Definition event_of (status : Z) : option string :=
  match status with
  | 200 => Some "gate:matched"
  | 409 => Some "gate:mismatch"
  | 422 => Some "gate:invalid"
  | _ => None
  end.

Definition outcome_log (status : Z) : string :=
  match status with
  | 200 => "matched.log.json"
  | 409 => "mismatch.log.json"
  | 422 => "invalid.log.json"
  | _ => "error.log.json"
  end.

Definition outcome_logs : list string :=
  ["matched.log.json"; "mismatch.log.json"; "invalid.log.json"; "error.log.json"].


(** * Properties *)

(** ** JSON round trip *)

Lemma jsval_nested_ind (P : jsval -> Prop) :
  P VUndefined -> P VNull -> (forall b, P (VBool b)) -> (forall n, P (VNum n)) ->
  (forall s, P (VStr s)) ->
  (forall l, Forall P l -> P (VArr l)) ->
  (forall ps, Forall (fun kv => P kv.2) ps -> P (VObj ps)) ->
  forall v, P v.
Proof.
  intros Hu Hn Hb Hz Hs Ha Ho.
  fix IH 1. intros v. destruct v as [ | | b | n | s | l | ps].
  - exact Hu.
  - exact Hn.
  - apply Hb.
  - apply Hz.
  - apply Hs.
  - apply Ha. induction l as [|x l IHl]; constructor; [apply IH | exact IHl].
  - apply Ho. induction ps as [|[k x] ps IHps]; constructor; [apply IH | exact IHps].
Qed.

Lemma jsonify_arr l : jsonify (VArr l) = VArr (map json_elem l).
Proof.
  simpl. f_equal. induction l as [|x l IHl]; [done|].
  rewrite IHl. by destruct x.
Qed.

Lemma jsonify_not_undefined v : v <> VUndefined -> jsonify v <> VUndefined.
Proof. by destruct v. Qed.

Lemma json_elem_not_undefined v : json_elem v <> VUndefined.
Proof. by destruct v. Qed.

Lemma json_elem_defined v : v <> VUndefined -> json_elem v = jsonify v.
Proof. by destruct v. Qed.

Lemma jsonify_idem v : jsonify (jsonify v) = jsonify v.
Proof.
  induction v as [ | | b | n | s | l IHl | ps IHps] using jsval_nested_ind; try done.
  - rewrite !jsonify_arr. f_equal. rewrite map_map.
    induction IHl as [|x l Hx _ IH]; [done|]. simpl. rewrite IH. f_equal.
    destruct x; try done; exact Hx.
  - simpl. f_equal.
    induction IHps as [|[k x] ps Hx _ IH]; [done|]. simpl in Hx.
    destruct x; simpl in *; try (by rewrite IH); try (by rewrite IH; inversion Hx).
    + rewrite IH. f_equal. f_equal. exact Hx.
    + rewrite IH. f_equal. f_equal. exact Hx.
Qed.

(** ** The log helpers on a well-formed log directory *)

#[local] Arguments jsonify : simpl never.
#[local] Arguments json_elem : simpl never.
#[local] Arguments entry_at : simpl never.

Lemma object_spread_obj base data : exists ps, object_spread base data = VObj ps.
Proof. unfold object_spread. eauto. Qed.

Lemma json_elem_entry E n data :
  json_elem (entry_at E n data) = jsonify (entry_at E n data).
Proof. apply json_elem_defined. unfold entry_at, object_spread. discriminate. Qed.

Lemma logs_wf_stored w file :
  logs_wf w ->
  stored (files w !! file) = VArr (history file w) /\
  map json_elem (history file w) = history file w.
Proof.
  intros Hwf. destruct (Hwf file) as (items & Hs & Hj).
  unfold history. rewrite Hs. split; [done|].
  rewrite jsonify_arr in Hj. congruence.
Qed.

Lemma jsonify_push E n data items :
  map json_elem items = items ->
  jsonify (VArr (items ++ [entry_at E n data]))
  = VArr (items ++ [jsonify (entry_at E n data)]).
Proof.
  intros Hc. rewrite jsonify_arr, map_app, Hc. cbn [map].
  by rewrite json_elem_entry.
Qed.

Lemma writeLog_run E file data w :
  logs_wf w -> writeLog E file data w = (Ok tt, appended E file data w).
Proof.
  intros Hwf. destruct (logs_wf_stored w file Hwf) as [Hs Hc].
  unfold writeLog, bind, readStored. rewrite Hs.
  unfold nowISO, bind, newDate, ret, writeFileSync, appended.
  cbn [ticks files trace]. fold (entry_at E (ticks w) data).
  by rewrite jsonify_push.
Qed.

Lemma history_appended E file data w file' :
  history file' (appended E file data w)
  = if decide (file = file')
    then (history file w ++ [jsonify (entry_at E (ticks w) data)])%list
    else history file' w.
Proof.
  unfold history at 1. simpl. rewrite lookup_insert.
  case_decide; [by subst|]. done.
Qed.

Lemma appended_wf E file data w : logs_wf w -> logs_wf (appended E file data w).
Proof.
  intros Hwf file'. exists (history file' (appended E file data w)).
  destruct (logs_wf_stored w file' Hwf) as [Hs' Hc'].
  destruct (logs_wf_stored w file Hwf) as [Hs Hc].
  rewrite jsonify_arr. rewrite history_appended. simpl. rewrite lookup_insert.
  case_decide as Hf.
  - subst file'. split; [done|]. rewrite map_app, Hc. cbn [map].
    rewrite json_elem_defined, jsonify_idem; [done|].
    apply jsonify_not_undefined. unfold entry_at, object_spread. discriminate.
  - split; [done|]. by rewrite Hc'.
Qed.

Lemma history_emitted e w file : history file (emitted e w) = history file w.
Proof. done. Qed.

Lemma history_ticked w file : history file (ticked w) = history file w.
Proof. done. Qed.

Lemma ticks_appended E file data w : ticks (appended E file data w) = S (ticks w).
Proof. done. Qed.

Lemma ticks_emitted e w : ticks (emitted e w) = ticks w.
Proof. done. Qed.

Lemma ticks_ticked w : ticks (ticked w) = S (ticks w).
Proof. done. Qed.

Lemma trace_appended E file data w :
  trace (appended E file data w)
  = (trace w ++ [EWrite file (entry_at E (ticks w) data)])%list.
Proof. done. Qed.

Lemma trace_emitted e w : trace (emitted e w) = (trace w ++ [e])%list.
Proof. done. Qed.

Lemma trace_ticked w : trace (ticked w) = trace w.
Proof. done. Qed.

Create Rewrite HintDb world.
#[local] Hint Rewrite history_appended history_emitted history_ticked
  ticks_appended ticks_emitted ticks_ticked
  trace_appended trace_emitted trace_ticked : world.

Lemma emitted_wf e w : logs_wf w -> logs_wf (emitted e w).
Proof. intros Hwf file. exact (Hwf file). Qed.

Lemma ticked_wf w : logs_wf w -> logs_wf (ticked w).
Proof. intros Hwf file. exact (Hwf file). Qed.

Lemma forwarded_wf E payload w : logs_wf w -> logs_wf (forwarded E payload w).
Proof.
  intros Hwf. unfold forwarded.
  destruct (post_outcome E payload); auto using appended_wf, emitted_wf.
Qed.

Lemma sendToTargetAPI_run E payload w :
  logs_wf w -> sendToTargetAPI E payload w = (Ok tt, forwarded E payload w).
Proof.
  intros Hwf. unfold sendToTargetAPI, bind. rewrite writeLog_run by done.
  unfold try_catch, axios_post_target, bind, log_effect, forwarded.
  fold (emitted (EPost payload) (appended E "sent-to-api.log.json" payload w)).
  destruct (post_outcome E payload) as [m|]; simpl; [|done].
  unfold throw. rewrite writeLog_run; [done|].
  auto using appended_wf, emitted_wf.
Qed.

Lemma log_effect_run e w : log_effect e w = (Ok tt, emitted e w).
Proof. done. Qed.

Lemma nowISO_run E w :
  nowISO E w = (Ok (VStr (iso_string E (clock E (ticks w)))), ticked w).
Proof. done. Qed.

Lemma isPermitExpired_stale E v w :
  stale E v (clock E (ticks w)) ->
  exists w', isPermitExpired E v w = (Ok true, w') /\
             (w' = w \/ w' = ticked w).
Proof.
  intros Hst. unfold isPermitExpired.
  destruct (truthy v) eqn:Ht; simpl; [|by eauto].
  destruct Hst as [-> | (t & Hd & Hlt)]; [done|].
  exists (ticked w). unfold bind, newDate, ret. rewrite Hd.
  split; [|by right]. f_equal. f_equal. by apply Z.ltb_lt.
Qed.

Lemma isPermitExpired_world E v w b w1 :
  isPermitExpired E v w = (Ok b, w1) -> w1 = w \/ w1 = ticked w.
Proof.
  unfold isPermitExpired. destruct (truthy v); simpl.
  - unfold bind, newDate, ret. intros [= _ <-]. by right.
  - unfold ret. intros [= _ <-]. by left.
Qed.

Lemma isPermitExpired_wf E v w b w1 :
  logs_wf w -> isPermitExpired E v w = (Ok b, w1) -> logs_wf w1.
Proof.
  intros Hwf H. by destruct (isPermitExpired_world _ _ _ _ _ H) as [-> | ->].
Qed.

Lemma isPermitExpired_fresh E v w w1 :
  isPermitExpired E v w = (Ok false, w1) ->
  w1 = ticked w /\ truthy v = true /\
  forall t, date_value E v = Some t -> clock E (ticks w) <= t.
Proof.
  unfold isPermitExpired. destruct (truthy v); simpl; [|by unfold ret].
  unfold bind, newDate, ret. intros [= Hb <-]. split; [done|]. split; [done|].
  intros t Ht. rewrite Ht in Hb. by apply Z.ltb_ge.
Qed.

Create HintDb logs discriminated.
#[local] Hint Resolve appended_wf emitted_wf ticked_wf forwarded_wf
  isPermitExpired_wf : logs.

#[local] Arguments appended : simpl never.
#[local] Arguments emitted : simpl never.
#[local] Arguments ticked : simpl never.
#[local] Arguments forwarded : simpl never.

(** Runs one more statement of a handler whose world is well formed. *)
Ltac run_step :=
  first
    [ rewrite writeLog_run by eauto 10 with logs
    | rewrite sendToTargetAPI_run by eauto 10 with logs
    | rewrite log_effect_run
    | rewrite nowISO_run ];
  cbn beta iota.

(** ** The handlers after the lookup *)

Section Respond.
Variable E : env.
Variables client soapData validTill : jsval.
Variables w w1 : world.
Hypothesis Hwf : logs_wf w.
Hypothesis Hvalid : get_prop soapData "isPermitValidTill" = Ok validTill.

Lemma V2_respond_expired :
  isPermitExpired E validTill w = (Ok true, w1) ->
  V2.respond E client soapData w
  = (Ok (invalid_response "PERMIT_EXPIRED" soapData),
     emitted (EEmit "gate:invalid" (V2.invalid_payload client soapData))
       (appended E "invalid.log.json" (V2.invalid_payload client soapData) w1)).
Proof.
  intros Hexp. unfold V2.respond, bind, lift. rewrite Hvalid, Hexp. cbn beta iota.
  by repeat run_step.
Qed.

Lemma V2_respond_decided ms :
  isPermitExpired E validTill w = (Ok false, w1) ->
  V2.mismatches client soapData = Ok ms ->
  V2.respond E client soapData w
  = match ms with
    | [] =>
        (Ok (matched_response soapData),
         emitted (EEmit "gate:matched" (V2.matched_payload client soapData))
           (forwarded E (V2.matched_payload client soapData)
              (appended E "matched.log.json" (V2.matched_payload client soapData) w1)))
    | _ :: _ =>
        (Ok (mismatch_response ms soapData),
         emitted (EEmit "gate:mismatch" (mismatch_payload client soapData ms))
           (appended E "mismatch.log.json" (mismatch_payload client soapData ms) w1))
    end.
Proof.
  intros Hexp Hms. unfold V2.respond, bind, lift. rewrite Hvalid, Hexp. cbn beta iota.
  rewrite Hms. destruct ms; by repeat run_step.
Qed.

Lemma V1_respond_expired :
  isPermitExpired E validTill w = (Ok true, w1) ->
  let payload :=
    V1.invalid_payload client soapData (VStr (iso_string E (clock E (ticks w1)))) in
  V1.respond E client soapData w
  = (Ok (invalid_response "INVALID_PERMIT" soapData),
     emitted (EEmit "gate:invalid" payload)
       (appended E "invalid.log.json" payload (ticked w1))).
Proof.
  intros Hexp. unfold V1.respond, bind, lift. rewrite Hvalid, Hexp. cbn beta iota.
  by repeat run_step.
Qed.

Lemma V1_respond_decided ms :
  isPermitExpired E validTill w = (Ok false, w1) ->
  V1.mismatches client soapData = Ok ms ->
  let payload :=
    V1.matched_payload "soap" client soapData (VStr (iso_string E (clock E (ticks w1)))) in
  V1.respond E client soapData w
  = match ms with
    | [] =>
        (Ok (matched_response soapData),
         emitted (EEmit "gate:matched" payload)
           (forwarded E payload (appended E "matched.log.json" payload (ticked w1))))
    | _ :: _ =>
        (Ok (mismatch_response ms soapData),
         emitted (EEmit "gate:mismatch" (mismatch_payload client soapData ms))
           (appended E "mismatch.log.json" (mismatch_payload client soapData ms) w1))
    end.
Proof.
  intros Hexp Hms. unfold V1.respond, bind, lift. rewrite Hvalid, Hexp. cbn beta iota.
  rewrite Hms. destruct ms; by repeat run_step.
Qed.

End Respond.

(** ** The handlers up to the lookup *)

Lemma V2_validate_lookup E client p parsed soapData w :
  logs_wf w ->
  get_prop client "permitNumber" = Ok p ->
  soap_exchange E p = Ok parsed ->
  V2.parseSoapResponse parsed = Ok soapData ->
  V2.validate E client w
  = try_catch (V2.respond E client soapData) (V2.on_error E)
      (emitted (ESoap p) (appended E "incoming.log.json" client w)).
Proof.
  intros Hwf Hp Hx Hparse. unfold V2.validate, try_catch at 1, bind at 1.
  run_step. unfold bind at 1, lift at 1. rewrite Hp. cbn beta iota.
  unfold bind at 1, V2.callSoapApi, bind at 1. run_step.
  unfold bind at 1, lift. by rewrite Hx, Hparse.
Qed.

Lemma V1_validate_lookup E client c p parsed soapData w :
  logs_wf w ->
  get_prop client "confirmedByUser" = Ok c ->
  strict_eq c (VBool true) = false ->
  get_prop client "permitNumber" = Ok p ->
  soap_exchange E p = Ok parsed ->
  V1.parseSoapResponse parsed = Ok soapData ->
  V1.validate E client w
  = try_catch (V1.respond E client soapData) (V1.on_error E)
      (emitted (ESoap p) (appended E "incoming.log.json" (VObj [("body", client)]) w)).
Proof.
  intros Hwf Hc Hne Hp Hx Hparse. unfold V1.validate, try_catch at 1, bind at 1.
  run_step. unfold bind at 1, lift at 1. rewrite Hc. cbn beta iota. rewrite Hne.
  unfold bind at 1, lift at 1. rewrite Hp. cbn beta iota.
  unfold bind at 1, V1.callSoapApi, bind at 1. run_step.
  unfold bind at 1, lift. by rewrite Hx, Hparse.
Qed.

Lemma try_catch_ok {A} (m : M A) h w a w' :
  m w = (Ok a, w') -> try_catch m h w = (Ok a, w').
Proof. intros H. unfold try_catch. by rewrite H. Qed.

Lemma V1_manual_run E client w :
  logs_wf w ->
  let payload :=
    V1.matched_payload "manual" client VNull (VStr (iso_string E (clock E (ticks w)))) in
  V1.manual E client w
  = (Ok V1.manual_response,
     emitted (EEmit "gate:matched" payload)
       (forwarded E payload (appended E "matched.log.json" payload (ticked w)))).
Proof.
  intros Hwf. unfold V1.manual, bind. by repeat run_step.
Qed.

(** ** The invariant is kept by every request *)

Lemma preserves_ret {A} (a : A) : preserves (ret a).
Proof. by intros w r w' Hwf [= _ <-]. Qed.

Lemma preserves_throw {A} e : preserves (@throw A e).
Proof. by intros w r w' Hwf [= _ <-]. Qed.

Lemma preserves_lift {A} (x : result A) : preserves (lift x).
Proof. by intros w r w' Hwf [= _ <-]. Qed.

Lemma preserves_bind {A B} (m : M A) (k : A -> M B) :
  preserves m -> (forall a, preserves (k a)) -> preserves (bind m k).
Proof.
  intros Hm Hk w r w' Hwf. unfold bind.
  destruct (m w) as [[a|e] w1] eqn:Hrun.
  - apply Hk. by apply (Hm w (Ok a)).
  - intros [= _ <-]. by apply (Hm w (Throw e)).
Qed.

Lemma preserves_try_catch {A} (m : M A) h :
  preserves m -> (forall e, preserves (h e)) -> preserves (try_catch m h).
Proof.
  intros Hm Hh w r w' Hwf. unfold try_catch.
  destruct (m w) as [[a|e] w1] eqn:Hrun.
  - intros [= _ <-]. by apply (Hm w (Ok a)).
  - apply Hh. by apply (Hm w (Throw e)).
Qed.

Lemma preserves_log_effect e : preserves (log_effect e).
Proof. intros w r w' Hwf [= _ <-]. by apply emitted_wf. Qed.

Lemma preserves_nowISO E : preserves (nowISO E).
Proof. intros w r w' Hwf. rewrite nowISO_run. intros [= _ <-]. by apply ticked_wf. Qed.

Lemma preserves_writeLog E file data : preserves (writeLog E file data).
Proof.
  intros w r w' Hwf. rewrite writeLog_run by done.
  intros [= _ <-]. by apply appended_wf.
Qed.

Lemma preserves_sendToTargetAPI E payload : preserves (sendToTargetAPI E payload).
Proof.
  intros w r w' Hwf. rewrite sendToTargetAPI_run by done.
  intros [= _ <-]. by apply forwarded_wf.
Qed.

Lemma preserves_isPermitExpired E v : preserves (isPermitExpired E v).
Proof.
  intros w r w' Hwf. unfold isPermitExpired.
  destruct (truthy v); cbn [negb].
  - unfold bind, newDate, ret. intros [= _ <-]. by apply ticked_wf.
  - by intros [= _ <-].
Qed.

#[local] Hint Resolve preserves_ret preserves_throw preserves_lift
  preserves_log_effect preserves_nowISO preserves_writeLog
  preserves_sendToTargetAPI preserves_isPermitExpired : logs.

Ltac preserves_steps :=
  repeat first
    [ solve [eauto with logs]
    | apply preserves_bind; [|intros ?]
    | apply preserves_try_catch; [|intros ?]
    | match goal with
      | |- preserves (if ?b then _ else _) => destruct b
      | |- preserves (match ?l with [] => _ | _ :: _ => _ end) => destruct l
      end ].

Lemma V1_validate_preserves E client : preserves (V1.validate E client).
Proof.
  unfold V1.validate, V1.on_error, V1.manual, V1.callSoapApi, V1.respond.
  preserves_steps.
Qed.

Lemma V2_validate_preserves E client : preserves (V2.validate E client).
Proof.
  unfold V2.validate, V2.on_error, V2.callSoapApi, V2.respond.
  preserves_steps.
Qed.

(** ** The scenarios of the specification, run on the second variant *)

(** Scenario A: permit and vehicle agree, the indicator is a plain flag
    (which [Date] cannot read, so the permit does not count as expired). *)
Example scenario_A :
  let authority := fun p =>
    Ok (Scenario.reply [("tns:PermitNumber", p);
                        ("tns:VechileNumber", VStr "MH12AB1234");
                        ("tns:IsPermitValid", VStr "true")]) in
  status <$> fst (V2.validate (Scenario.world_env authority)
                    Scenario.request_in Scenario.fresh)
  = Ok 200.
Proof. by vm_compute. Qed.

(** Scenario B: outbound PMD permit, container numbers differ. *)
Example scenario_B :
  V2.policy Scenario.request_out = Ok true /\
  V2.mismatches Scenario.request_out Scenario.record_out
  = Ok [detail "containerNumber" (VStr "CONT0000001") (VStr "CONT0000002")] /\
  status <$> fst (V2.validate Scenario.valid Scenario.request_out Scenario.fresh)
  = Ok 409.
Proof. by vm_compute. Qed.

(** Scenario C: the authority's validity date is in the past. *)
Example scenario_C :
  status <$> fst (V2.validate Scenario.lapsed Scenario.request_in Scenario.fresh)
  = Ok 422.
Proof. by vm_compute. Qed.

(** Scenario D: the request has no vehicle number. *)
Example scenario_D :
  V2.mismatches Scenario.request_no_vehicle Scenario.record_in
  = Ok [V2.missing_vehicle] /\
  status <$> fst (V2.validate Scenario.valid Scenario.request_no_vehicle Scenario.fresh)
  = Ok 409.
Proof. by vm_compute. Qed.

(** A permit number that is not a string makes the second variant fail
    after the lookup, in [permit.substring]. *)
(** A gate type written with the dotless i upper-cases to GATE_IN: the
    container check is made. *)
Example dotless_gate_type :
  toUpperCase ("gate_" +:+ String (ascii_of_nat 196) (String (ascii_of_nat 177) "n"))
  = "GATE_IN" /\
  fst (V2.validate Scenario.valid Scenario.request_dotless Scenario.fresh)
  = Ok (mismatch_response
          [detail "containerNumber" (VStr "CONT0000001") (VStr "CONT0000002")]
          (Scenario.record2 (VStr "2999-12-31T00:00:00Z") (VStr "PMA1001"))).
Proof. by vm_compute. Qed.

(** A prefix that no policy row names: the container numbers differ and the
    request is matched. *)
Example unlisted_prefix_skips_container :
  get_prop Scenario.request_other "containerNumber" = Ok (VStr "CONT0000001") /\
  fst (V2.validate Scenario.valid Scenario.request_other Scenario.fresh)
  = Ok (matched_response
          (Scenario.record2 (VStr "2999-12-31T00:00:00Z") (VStr "XYZ3003"))).
Proof. by vm_compute. Qed.

(** A gate type that is not a string: the message names the callee as V8
    prints it. *)
Example numeric_gate_type :
  message (TypeError (upper_callee +:+ " is not a function"))
  = "(client.gateType || " +:+ dquote +:+ dquote +:+ ").toUpperCase is not a function" /\
  fst (V2.validate Scenario.valid
         (VObj [("permitNumber", VStr "PMA1001"); ("gateType", VNum 1);
                ("vehicleNumber", VStr "MH12AB1234")])
         Scenario.fresh)
  = Ok (error_response (TypeError (upper_callee +:+ " is not a function"))).
Proof. by vm_compute. Qed.

Example numeric_permit_number :
  fst (V2.validate Scenario.valid
         (VObj [("permitNumber", VNum 1001); ("vehicleNumber", VStr "MH12AB1234")])
         Scenario.fresh)
  = Ok (error_response (TypeError "permit.substring is not a function")).
Proof. by vm_compute. Qed.

(** ** The claims *)

(** C6.  In the first variant (the one with the manual override), a request
    whose [confirmedByUser] is [true] is answered with the success response
    (status 200, [success: true]) after exactly these effects, in this
    order: the incoming entry, the matched entry, the forward (its own log
    entry, the POST, and the error entry if the POST failed) and the
    [gate:matched] event.  The payload that is logged, forwarded and emitted
    has [source] "manual", the request as [client] and [null] as
    [soapData].  No SOAP request is made. *)
Theorem manual_confirmation_skips_authority E client w :
  logs_wf w ->
  get_prop client "confirmedByUser" = Ok (VBool true) ->
  let n := ticks w in
  let payload :=
    V1.matched_payload "manual" client VNull (VStr (iso_string E (clock E (S n)))) in
  exists w',
    V1.validate E client w = (Ok V1.manual_response, w') /\
    trace w' =
      (trace w ++
       [EWrite "incoming.log.json" (entry_at E n (VObj [("body", client)]));
        EWrite "matched.log.json" (entry_at E (2 + n) payload);
        EWrite "sent-to-api.log.json" (entry_at E (3 + n) payload);
        EPost payload] ++
       match post_outcome E payload with
       | Some m => [EWrite "sent-to-api-error.log.json"
                      (entry_at E (4 + n) (forward_error m payload))]
       | None => []
       end ++
       [EEmit "gate:matched" payload])%list /\
    history "matched.log.json" w' =
      (history "matched.log.json" w ++ [jsonify (entry_at E (2 + n) payload)])%list /\
    (forall p, ESoap p ∈ trace w' -> ESoap p ∈ trace w) /\
    get_prop payload "source" = Ok (VStr "manual") /\
    get_prop payload "client" = Ok client /\
    get_prop payload "soapData" = Ok VNull /\
    get_prop (entry_at E (2 + n) payload) "source" = Ok (VStr "manual") /\
    get_prop (entry_at E (3 + n) payload) "source" = Ok (VStr "manual") /\
    status V1.manual_response = 200 /\
    get_prop (body V1.manual_response) "success" = Ok (VBool true).
Proof.
  intros Hwf Hc n payload. eexists.
  split; [|split; [|split; [|split; [|by vm_compute]]]].
  - unfold V1.validate. apply try_catch_ok. unfold bind at 1. run_step.
    unfold bind at 1, lift. rewrite Hc. cbn beta iota.
    change (strict_eq (VBool true) (VBool true)) with true. cbn beta iota.
    apply V1_manual_run. eauto with logs.
  - subst n payload. unfold forwarded. autorewrite with world.
    destruct (post_outcome E _); autorewrite with world;
      by rewrite <- !app_assoc.
  - subst n payload. unfold forwarded. autorewrite with world.
    destruct (post_outcome E _); autorewrite with world;
      by repeat case_decide.
  - subst n payload. unfold forwarded. autorewrite with world. intros p.
    destruct (post_outcome E _); autorewrite with world;
      rewrite !elem_of_app, !elem_of_cons, !elem_of_nil; intuition discriminate.
Qed.

(** ** Expired permits *)

Lemma V2_validate_expired E client p parsed soapData v w w2 :
  logs_wf w ->
  get_prop client "permitNumber" = Ok p ->
  soap_exchange E p = Ok parsed ->
  V2.parseSoapResponse parsed = Ok soapData ->
  get_prop soapData "isPermitValidTill" = Ok v ->
  isPermitExpired E v (emitted (ESoap p) (appended E "incoming.log.json" client w))
  = (Ok true, w2) ->
  V2.validate E client w
  = (Ok (invalid_response "PERMIT_EXPIRED" soapData),
     emitted (EEmit "gate:invalid" (V2.invalid_payload client soapData))
       (appended E "invalid.log.json" (V2.invalid_payload client soapData) w2)).
Proof.
  intros Hwf Hp Hx Hparse Hv Hexp.
  rewrite (V2_validate_lookup E client p parsed soapData) by done.
  apply try_catch_ok. eapply V2_respond_expired; eauto with logs.
Qed.

Lemma V1_validate_expired E client c p parsed soapData v w w2 :
  logs_wf w ->
  get_prop client "confirmedByUser" = Ok c ->
  strict_eq c (VBool true) = false ->
  get_prop client "permitNumber" = Ok p ->
  soap_exchange E p = Ok parsed ->
  V1.parseSoapResponse parsed = Ok soapData ->
  get_prop soapData "isPermitValidTill" = Ok v ->
  isPermitExpired E v
    (emitted (ESoap p) (appended E "incoming.log.json" (VObj [("body", client)]) w))
  = (Ok true, w2) ->
  let payload :=
    V1.invalid_payload client soapData (VStr (iso_string E (clock E (ticks w2)))) in
  V1.validate E client w
  = (Ok (invalid_response "INVALID_PERMIT" soapData),
     emitted (EEmit "gate:invalid" payload)
       (appended E "invalid.log.json" payload (ticked w2))).
Proof.
  intros Hwf Hc Hne Hp Hx Hparse Hv Hexp payload.
  rewrite (V1_validate_lookup E client c p parsed soapData) by done.
  apply try_catch_ok. eapply V1_respond_expired; eauto with logs.
Qed.


Lemma V1_parseSoapResponse_no_validity parsed soapData :
  V1.parseSoapResponse parsed = Ok soapData ->
  get_prop soapData "isPermitValidTill" = Ok VUndefined.
Proof.
  unfold V1.parseSoapResponse. destruct (permitDTLS parsed) as [d|]; [|done].
  destruct d; simpl; try done; by intros [= <-].
Qed.


(** C1.  In both variants, when the lookup returns a record whose validity
    indicator is absent, or resolves to a time strictly before the clock
    reading of the expiry check, the request is answered 422 with the
    authority record under [soapData] in the body and no mismatch list; the
    only effects after the SOAP request are the invalid entry and the
    [gate:invalid] event, whose payload and whose log entry both hold the
    authority record under [soapData], the request under [client] and the
    reason "PERMIT_EXPIRED".  This holds for every request body, so no field
    is compared. *)
Theorem expired_permit_short_circuits E client p parsed w :
  logs_wf w ->
  get_prop client "permitNumber" = Ok p ->
  soap_exchange E p = Ok parsed ->
  let now := clock E (S (ticks w)) in
  (forall soapData v,
     V2.parseSoapResponse parsed = Ok soapData ->
     get_prop soapData "isPermitValidTill" = Ok v ->
     stale E v now ->
     let payload := V2.invalid_payload client soapData in
     exists n w',
       V2.validate E client w = (Ok (invalid_response "PERMIT_EXPIRED" soapData), w') /\
       trace w' =
         (trace w ++
          [EWrite "incoming.log.json" (entry_at E (ticks w) client);
           ESoap p;
           EWrite "invalid.log.json" (entry_at E n payload);
           EEmit "gate:invalid" payload])%list /\
       history "invalid.log.json" w' =
         (history "invalid.log.json" w ++ [jsonify (entry_at E n payload)])%list /\
       status (invalid_response "PERMIT_EXPIRED" soapData) = 422 /\
       get_prop (body (invalid_response "PERMIT_EXPIRED" soapData)) "soapData"
       = Ok soapData /\
       get_prop (body (invalid_response "PERMIT_EXPIRED" soapData)) "mismatches"
       = Ok VUndefined /\
       get_prop payload "soapData" = Ok soapData /\
       get_prop payload "client" = Ok client /\
       get_prop payload "reason" = Ok (VStr "PERMIT_EXPIRED") /\
       get_prop payload "mismatches" = Ok VUndefined /\
       get_prop (entry_at E n payload) "soapData" = Ok soapData /\
       get_prop (entry_at E n payload) "reason" = Ok (VStr "PERMIT_EXPIRED")) /\
  (forall c soapData v,
     get_prop client "confirmedByUser" = Ok c ->
     strict_eq c (VBool true) = false ->
     V1.parseSoapResponse parsed = Ok soapData ->
     get_prop soapData "isPermitValidTill" = Ok v ->
     stale E v now ->
     exists n w',
       let payload :=
         V1.invalid_payload client soapData (VStr (iso_string E (clock E n))) in
       V1.validate E client w = (Ok (invalid_response "INVALID_PERMIT" soapData), w') /\
       trace w' =
         (trace w ++
          [EWrite "incoming.log.json" (entry_at E (ticks w) (VObj [("body", client)]));
           ESoap p;
           EWrite "invalid.log.json" (entry_at E (S n) payload);
           EEmit "gate:invalid" payload])%list /\
       history "invalid.log.json" w' =
         (history "invalid.log.json" w ++ [jsonify (entry_at E (S n) payload)])%list /\
       status (invalid_response "INVALID_PERMIT" soapData) = 422 /\
       get_prop (body (invalid_response "INVALID_PERMIT" soapData)) "soapData"
       = Ok soapData /\
       get_prop (body (invalid_response "INVALID_PERMIT" soapData)) "mismatches"
       = Ok VUndefined /\
       get_prop payload "soapData" = Ok soapData /\
       get_prop payload "client" = Ok client /\
       get_prop payload "reason" = Ok (VStr "PERMIT_EXPIRED") /\
       get_prop payload "mismatches" = Ok VUndefined /\
       get_prop (entry_at E (S n) payload) "soapData" = Ok soapData /\
       get_prop (entry_at E (S n) payload) "reason" = Ok (VStr "PERMIT_EXPIRED")).
Proof.
  intros Hwf Hp Hx now. split.
  - intros soapData v Hparse Hv Hst payload.
    destruct (isPermitExpired_stale E v
                (emitted (ESoap p) (appended E "incoming.log.json" client w)))
      as (w2 & Hexp & Hw2); [done|].
    exists (ticks w2). eexists. split; [|split; [|split; [|by vm_compute]]].
    + eapply V2_validate_expired; eauto.
    + destruct Hw2 as [-> | ->]; autorewrite with world; by rewrite <- !app_assoc.
    + destruct Hw2 as [-> | ->]; autorewrite with world; by repeat case_decide.
  - intros c soapData v Hc Hne Hparse Hv Hst.
    destruct (isPermitExpired_stale E v
                (emitted (ESoap p)
                   (appended E "incoming.log.json" (VObj [("body", client)]) w)))
      as (w2 & Hexp & Hw2); [done|].
    exists (ticks w2). eexists. cbn zeta. split; [|split; [|split; [|by vm_compute]]].
    + eapply V1_validate_expired; eauto.
    + destruct Hw2 as [-> | ->]; autorewrite with world; by rewrite <- !app_assoc.
    + destruct Hw2 as [-> | ->]; autorewrite with world; by repeat case_decide.
Qed.

(** ** The mismatch list *)

Lemma filter_detail field field' c s :
  List.filter (is_field field) [detail field' c s]
  = if String.eqb field' field then [detail field' c s] else [].
Proof. done. Qed.

Lemma V2_vehicle_check_spec client soapData cv sv m :
  get_prop client "vehicleNumber" = Ok cv ->
  get_prop soapData "vehicleNumber" = Ok sv ->
  V2.vehicle_check client soapData = Ok m ->
  m = if negb (truthy cv) then [V2.missing_vehicle]
      else if truthy sv && strict_ne cv sv
           then [detail "vehicleNumber" cv sv] else [].
Proof.
  intros Hcv Hsv. unfold V2.vehicle_check. rewrite Hcv.
  destruct (truthy cv); cbn [negb]; [rewrite Hsv|]; congruence.
Qed.

Lemma V2_container_check_spec require client soapData cc sc m :
  get_prop client "containerNumber" = Ok cc ->
  get_prop soapData "containerNumber" = Ok sc ->
  V2.container_check require client soapData = Ok m ->
  m = if require && truthy cc && truthy sc && strict_ne cc sc
      then [detail "containerNumber" cc sc] else [].
Proof.
  intros Hcc Hsc. unfold V2.container_check.
  destruct require; cbn [andb]; [|congruence]. rewrite Hcc.
  destruct (truthy cc); cbn [andb]; [rewrite Hsc|]; congruence.
Qed.

Lemma V2_vehicle_check_fields client soapData m :
  V2.vehicle_check client soapData = Ok m ->
  List.filter (is_field "vehicleNumber") m = m /\
  List.filter (is_field "containerNumber") m = [] /\
  List.filter (is_field "permitNumber") m = [].
Proof.
  unfold V2.vehicle_check.
  destruct (get_prop client "vehicleNumber") as [cv|]; [|done].
  destruct (truthy cv); cbn [negb]; [|by intros [= <-]].
  destruct (get_prop soapData "vehicleNumber") as [sv|]; [|done].
  destruct (truthy sv && strict_ne cv sv); by intros [= <-].
Qed.

Lemma V2_container_check_fields require client soapData m :
  V2.container_check require client soapData = Ok m ->
  List.filter (is_field "containerNumber") m = m /\
  List.filter (is_field "vehicleNumber") m = [] /\
  List.filter (is_field "permitNumber") m = [].
Proof.
  unfold V2.container_check. destruct require; [|by intros [= <-]].
  destruct (get_prop client "containerNumber") as [cc|]; [|done].
  destruct (truthy cc); [|by intros [= <-]].
  destruct (get_prop soapData "containerNumber") as [sc|]; [|done].
  destruct (truthy sc && strict_ne cc sc); by intros [= <-].
Qed.

Lemma V2_mismatches_split client soapData ms :
  V2.mismatches client soapData = Ok ms ->
  exists require m1 m2,
    V2.policy client = Ok require /\
    V2.vehicle_check client soapData = Ok m1 /\
    V2.container_check require client soapData = Ok m2 /\
    ms = (m1 ++ m2)%list.
Proof.
  unfold V2.mismatches.
  destruct (V2.policy client) as [require|]; [|done].
  destruct (V2.vehicle_check client soapData) as [m1|]; [|done].
  destruct (V2.container_check require client soapData) as [m2|] eqn:Hm2; [|done].
  intros [= <-]. exists require, m1, m2. by rewrite Hm2.
Qed.

Lemma V1_permit_check_spec client soapData cp sp m :
  get_prop client "permitNumber" = Ok cp ->
  get_prop soapData "permitNumber" = Ok sp ->
  V1.permit_check client soapData = Ok m ->
  m = if strict_ne cp sp then [detail "permitNumber" cp sp] else [].
Proof.
  intros Hcp Hsp. unfold V1.permit_check. rewrite Hcp, Hsp. congruence.
Qed.

Lemma V1_container_check_spec client soapData cc sc m :
  get_prop client "containerNumber" = Ok cc ->
  get_prop soapData "containerNumber" = Ok sc ->
  V1.container_check client soapData = Ok m ->
  m = if truthy cc && strict_ne cc sc
      then [detail "containerNumber" cc sc] else [].
Proof.
  intros Hcc Hsc. unfold V1.container_check. rewrite Hcc.
  destruct (truthy cc); cbn [andb]; [rewrite Hsc|]; congruence.
Qed.

Lemma V1_permit_check_fields client soapData m :
  V1.permit_check client soapData = Ok m ->
  List.filter (is_field "permitNumber") m = m /\
  List.filter (is_field "containerNumber") m = [] /\
  List.filter (is_field "vehicleNumber") m = [].
Proof.
  unfold V1.permit_check.
  destruct (get_prop client "permitNumber") as [cp|]; [|done].
  destruct (get_prop soapData "permitNumber") as [sp|]; [|done].
  destruct (strict_ne cp sp); by intros [= <-].
Qed.

Lemma V1_container_check_fields client soapData m :
  V1.container_check client soapData = Ok m ->
  List.filter (is_field "containerNumber") m = m /\
  List.filter (is_field "permitNumber") m = [] /\
  List.filter (is_field "vehicleNumber") m = [].
Proof.
  unfold V1.container_check.
  destruct (get_prop client "containerNumber") as [cc|]; [|done].
  destruct (truthy cc); [|by intros [= <-]].
  destruct (get_prop soapData "containerNumber") as [sc|]; [|done].
  destruct (strict_ne cc sc); by intros [= <-].
Qed.

Lemma V1_mismatches_split client soapData ms :
  V1.mismatches client soapData = Ok ms ->
  exists m1 m2,
    V1.permit_check client soapData = Ok m1 /\
    V1.container_check client soapData = Ok m2 /\
    ms = (m1 ++ m2)%list.
Proof.
  unfold V1.mismatches.
  destruct (V1.permit_check client soapData) as [m1|]; [|done].
  destruct (V1.container_check client soapData) as [m2|]; [|done].
  intros [= <-]. by exists m1, m2.
Qed.

(** C4 (as amended).  The first variant's mismatch list has a permitNumber
    detail exactly when the submitted and the authoritative permit number
    are not strictly equal; the second variant's mismatch list never has a
    permitNumber detail. *)
Theorem permit_number_compared_in_first_variant_only client soapData cp sp :
  get_prop client "permitNumber" = Ok cp ->
  get_prop soapData "permitNumber" = Ok sp ->
  (forall ms,
     V1.mismatches client soapData = Ok ms ->
     List.filter (is_field "permitNumber") ms
     = if strict_ne cp sp then [detail "permitNumber" cp sp] else []) /\
  (forall ms,
     V2.mismatches client soapData = Ok ms ->
     List.filter (is_field "permitNumber") ms = []).
Proof.
  intros Hcp Hsp. split.
  - intros ms Hms.
    destruct (V1_mismatches_split _ _ _ Hms) as (m1 & m2 & H1 & H2 & ->).
    rewrite List.filter_app.
    destruct (V1_permit_check_fields _ _ _ H1) as (-> & _).
    destruct (V1_container_check_fields _ _ _ H2) as (_ & -> & _).
    rewrite app_nil_r. by apply V1_permit_check_spec with client soapData.
  - intros ms Hms.
    destruct (V2_mismatches_split _ _ _ Hms) as (r & m1 & m2 & Hr & H1 & H2 & ->).
    rewrite List.filter_app.
    destruct (V2_vehicle_check_fields _ _ _ H1) as (_ & _ & ->).
    by destruct (V2_container_check_fields _ _ _ _ H2) as (_ & _ & ->).
Qed.

(** C4, counterexample: in the second variant a request whose permit number
    differs from the authority's is answered as matched. *)
Lemma second_variant_ignores_permit_number :
  let soapData :=
    VObj [("permitNumber", VStr "PMA9999"); ("containerNumber", VUndefined);
          ("vehicleNumber", VStr "MH12AB1234");
          ("isPermitValidTill", VStr "2999-12-31T00:00:00Z")] in
  get_prop Scenario.request_in "permitNumber" = Ok (VStr "PMA1001") /\
  V2.mismatches Scenario.request_in soapData = Ok [] /\
  fst (V2.validate (Scenario.world_env Scenario.renumbered)
         Scenario.request_in Scenario.fresh)
  = Ok (matched_response soapData).
Proof. by vm_compute. Qed.

(** C7 (as amended).  Whenever the expiry check of a looked-up record
    returns [true], the response has status 422 and its body carries the
    authority record under [soapData]; the body's [type] is
    "PERMIT_EXPIRED" in the second variant and "INVALID_PERMIT" in the
    first. *)
Theorem expired_response_shape E client p parsed w :
  logs_wf w ->
  get_prop client "permitNumber" = Ok p ->
  soap_exchange E p = Ok parsed ->
  (forall soapData v w2,
     V2.parseSoapResponse parsed = Ok soapData ->
     get_prop soapData "isPermitValidTill" = Ok v ->
     isPermitExpired E v
       (emitted (ESoap p) (appended E "incoming.log.json" client w))
     = (Ok true, w2) ->
     exists r w',
       V2.validate E client w = (Ok r, w') /\
       status r = 422 /\
       get_prop (body r) "type" = Ok (VStr "PERMIT_EXPIRED") /\
       get_prop (body r) "soapData" = Ok soapData) /\
  (forall c soapData v w2,
     get_prop client "confirmedByUser" = Ok c ->
     strict_eq c (VBool true) = false ->
     V1.parseSoapResponse parsed = Ok soapData ->
     get_prop soapData "isPermitValidTill" = Ok v ->
     isPermitExpired E v
       (emitted (ESoap p)
          (appended E "incoming.log.json" (VObj [("body", client)]) w))
     = (Ok true, w2) ->
     exists r w',
       V1.validate E client w = (Ok r, w') /\
       status r = 422 /\
       get_prop (body r) "type" = Ok (VStr "INVALID_PERMIT") /\
       get_prop (body r) "soapData" = Ok soapData).
Proof.
  intros Hwf Hp Hx. split.
  - intros soapData v w2 Hparse Hv Hexp. do 2 eexists. split.
    + eapply V2_validate_expired; eauto.
    + done.
  - intros c soapData v w2 Hc Hne Hparse Hv Hexp. do 2 eexists. split.
    + eapply V1_validate_expired; eauto.
    + done.
Qed.

(** C7, counterexample: the first variant answers a lapsed permit with
    [type: "INVALID_PERMIT"]. *)
Lemma first_variant_expired_type :
  exists r,
    fst (V1.validate Scenario.lapsed Scenario.request_in Scenario.fresh) = Ok r /\
    status r = 422 /\
    get_prop (body r) "type" = Ok (VStr "INVALID_PERMIT") /\
    get_prop (body r) "type" <> Ok (VStr "PERMIT_EXPIRED").
Proof. eexists. by vm_compute. Qed.

(** ** Forwarding *)


(** ** The audit log *)

Lemma spread_keeps_timestamp ps ts tail :
  lookup_prop "timestamp" ps = None ->
  exists tail',
    fold_left (fun acc kv => set_prop kv.1 kv.2 acc) ps (("timestamp", ts) :: tail)
    = ("timestamp", ts) :: tail'.
Proof.
  revert tail. induction ps as [|[k x] ps IH]; intros tail Hno; [by eexists|].
  cbn [fold_left fst snd set_prop]. cbn [lookup_prop] in Hno.
  rewrite String.eqb_sym in Hno. destruct (String.eqb k "timestamp"); [done|].
  by apply IH.
Qed.

Lemma entry_timestamp E n data :
  lookup_prop "timestamp" (own_props data) = None ->
  get_prop (jsonify (entry_at E n data)) "timestamp"
  = Ok (VStr (iso_string E (clock E n))).
Proof.
  intros Hno. unfold entry_at, object_spread.
  by destruct (spread_keeps_timestamp _ (VStr (iso_string E (clock E n))) [] Hno)
    as [tail' ->].
Qed.

Lemma appended_to_length E c n calls :
  length (appended_to E c n calls)
  = length (List.filter (fun call => String.eqb call.1 c) calls).
Proof.
  revert n. induction calls as [|[file data] calls IH]; intros n; [done|].
  cbn [appended_to List.filter fst]. destruct (String.eqb file c); cbn [length];
    by rewrite IH.
Qed.

Lemma writeLogs_run E calls : forall w,
  logs_wf w ->
  exists w',
    writeLogs E calls w = (Ok tt, w') /\ logs_wf w' /\
    forall c, history c w' = (history c w ++ appended_to E c (ticks w) calls)%list.
Proof.
  induction calls as [|[file data] calls IH]; intros w Hwf.
  - exists w. repeat split; [done|]. intros c. by rewrite app_nil_r.
  - destruct (IH (appended E file data w)) as (w' & Hrun & Hwf' & Hh);
      [eauto with logs|].
    exists w'. split; [|split; [done|]].
    + cbn [writeLogs]. unfold bind. by rewrite writeLog_run.
    + intros c. rewrite Hh, history_appended, ticks_appended. cbn [appended_to].
      case_decide as Hc.
      * subst c. by rewrite String.eqb_refl, <- app_assoc.
      * apply String.eqb_neq in Hc. by rewrite Hc.
Qed.

(** C9 (as amended).  On a well-formed log directory every run of
    [writeLog] calls succeeds, and afterwards [readLog] of any category
    returns its earlier history followed by one entry per call to that
    category, in call order; starting from an empty history that is exactly
    as many entries as there were calls to the category.  An entry carries
    the timestamp of its own append when the appended data has no
    [timestamp] property of its own. *)
Theorem query_returns_appends_in_order E calls w :
  logs_wf w ->
  exists w',
    writeLogs E calls w = (Ok tt, w') /\
    (forall c,
       readLog c w' = (Ok (VArr (history c w ++ appended_to E c (ticks w) calls)), w') /\
       (history c w = [] ->
        length (history c w ++ appended_to E c (ticks w) calls)
        = length (List.filter (fun call => String.eqb call.1 c) calls))) /\
    (forall n data,
       lookup_prop "timestamp" (own_props data) = None ->
       get_prop (jsonify (entry_at E n data)) "timestamp"
       = Ok (VStr (iso_string E (clock E n)))).
Proof.
  intros Hwf. destruct (writeLogs_run E calls w Hwf) as (w' & Hrun & Hwf' & Hh).
  exists w'. split; [done|]. split.
  - intros c. split.
    + unfold readLog, readStored. destruct (logs_wf_stored w' c Hwf') as [-> _].
      by rewrite Hh.
    + intros ->. cbn [app]. apply appended_to_length.
  - intros n data. apply entry_timestamp.
Qed.

(** C9, counterexample: a request body with a [timestamp] property of its
    own is appended to the incoming log by the second variant's handler;
    the entry read back carries the body's timestamp, not the time of the
    append. *)
Lemma appended_data_overrides_timestamp :
  let data := VObj [("permitNumber", VStr "PMA1001");
                    ("timestamp", VStr "1999-12-31T00:00:00Z")] in
  let e := VObj [("timestamp", VStr "1999-12-31T00:00:00Z");
                 ("permitNumber", VStr "PMA1001")] in
  let out := writeLog Scenario.valid "incoming.log.json" data Scenario.fresh in
  fst out = Ok tt /\
  fst (readLog "incoming.log.json" (snd out)) = Ok (VArr [e]) /\
  get_prop e "timestamp" = Ok (VStr "1999-12-31T00:00:00Z") /\
  get_prop e "timestamp"
  <> Ok (VStr (iso_string Scenario.valid (clock Scenario.valid 0))).
Proof. by vm_compute. Qed.

(** ** The theorems at work on the scenarios *)

Lemma fresh_wf : logs_wf Scenario.fresh.
Proof.
  intros file. exists []. unfold Scenario.fresh. cbn [files].
  by rewrite lookup_empty.
Qed.

(** A lapsed permit: both variants answer 422. *)
Lemma expired_permit_short_circuits_witness :
  let past := VStr "1999-12-31T00:00:00Z" in
  let p := VStr "PMA1001" in
  stale Scenario.lapsed past (clock Scenario.lapsed 1) /\
  (exists w',
     V2.validate Scenario.lapsed Scenario.request_in Scenario.fresh
     = (Ok (invalid_response "PERMIT_EXPIRED" (Scenario.record2 past p)), w')) /\
  (exists w',
     V1.validate Scenario.lapsed Scenario.request_in Scenario.fresh
     = (Ok (invalid_response "INVALID_PERMIT" (Scenario.record1 p)), w')).
Proof.
  intros past p.
  assert (Hst : stale Scenario.lapsed past (clock Scenario.lapsed 1)).
  { right. exists 0. split; [reflexivity | reflexivity]. }
  destruct (expired_permit_short_circuits Scenario.lapsed Scenario.request_in p
              (Scenario.reply [("tns:PermitNumber", p);
                               ("tns:ContainerNumber", VStr "CONT0000002");
                               ("tns:VechileNumber", VStr "MH12AB1234");
                               ("tns:IsPermitValid", past)])
              Scenario.fresh fresh_wf eq_refl eq_refl) as [H2 H1].
  split; [exact Hst|]. split.
  - destruct (H2 (Scenario.record2 past p) past eq_refl eq_refl Hst)
      as (n & w' & Hrun & _).
    exists w'. exact Hrun.
  - destruct (H1 VUndefined (Scenario.record1 p) VUndefined
                eq_refl eq_refl eq_refl eq_refl (or_introl eq_refl))
      as (n & w' & Hrun & _).
    exists w'. exact Hrun.
Defined.

Lemma permit_number_compared_in_first_variant_only_witness :
  V1.mismatches Scenario.request_in Scenario.record_out
  = Ok [detail "permitNumber" (VStr "PMA1001") (VStr "PMD2002")] /\
  List.filter (is_field "permitNumber")
    [detail "permitNumber" (VStr "PMA1001") (VStr "PMD2002")]
  = [detail "permitNumber" (VStr "PMA1001") (VStr "PMD2002")].
Proof.
  destruct (permit_number_compared_in_first_variant_only
              Scenario.request_in Scenario.record_out
              (VStr "PMA1001") (VStr "PMD2002") eq_refl eq_refl)
    as [H1 _].
  split; [reflexivity|].
  exact (H1 _ eq_refl).
Defined.

Lemma manual_confirmation_skips_authority_witness :
  get_prop Scenario.request_confirmed "confirmedByUser" = Ok (VBool true) /\
  exists w',
    V1.validate Scenario.valid Scenario.request_confirmed Scenario.fresh
    = (Ok V1.manual_response, w') /\
    forall p, ESoap p ∈ trace w' -> ESoap p ∈ trace Scenario.fresh.
Proof.
  split; [reflexivity|].
  destruct (manual_confirmation_skips_authority Scenario.valid
              Scenario.request_confirmed Scenario.fresh fresh_wf eq_refl)
    as (w' & Hrun & _ & _ & Hsoap & _).
  exists w'. split; [exact Hrun | exact Hsoap].
Defined.

(** Scenario C: the authority's record lapsed in 1999. *)
Lemma expired_response_shape_witness :
  exists r w',
    V2.validate Scenario.lapsed Scenario.request_in Scenario.fresh = (Ok r, w') /\
    status r = 422 /\
    get_prop (body r) "type" = Ok (VStr "PERMIT_EXPIRED").
Proof.
  destruct (expired_response_shape Scenario.lapsed Scenario.request_in
              (VStr "PMA1001")
              (Scenario.reply [("tns:PermitNumber", VStr "PMA1001");
                               ("tns:ContainerNumber", VStr "CONT0000002");
                               ("tns:VechileNumber", VStr "MH12AB1234");
                               ("tns:IsPermitValid", VStr "1999-12-31T00:00:00Z")])
              Scenario.fresh fresh_wf eq_refl eq_refl) as [H2 _].
  destruct (H2 (Scenario.record2 (VStr "1999-12-31T00:00:00Z") (VStr "PMA1001"))
              (VStr "1999-12-31T00:00:00Z") _ eq_refl eq_refl eq_refl)
    as (r & w' & Hrun & Hst & Hty & _).
  exists r, w'. split; [exact Hrun|]. split; [exact Hst | exact Hty].
Defined.


(** Two appends to one category with an append to another in between. *)
Lemma query_returns_appends_in_order_witness :
  let calls := [("matched.log.json", VObj [("source", VStr "soap")]);
                ("mismatch.log.json", VObj [("mismatches", VArr [])]);
                ("matched.log.json", VObj [("source", VStr "manual")])] in
  exists w',
    writeLogs Scenario.valid calls Scenario.fresh = (Ok tt, w') /\
    readLog "matched.log.json" w'
    = (Ok (VArr (history "matched.log.json" Scenario.fresh ++
                 appended_to Scenario.valid "matched.log.json" 0 calls)), w').
Proof.
  intros calls.
  destruct (query_returns_appends_in_order Scenario.valid calls Scenario.fresh fresh_wf)
    as (w' & Hrun & Hread & _).
  exists w'. split; [exact Hrun|]. exact (proj1 (Hread "matched.log.json")).
Defined.


(** * Further properties of the service *)

(** ** How a request ends *)

#[local] Arguments failed : simpl never.

Lemma failed_wf E err w : logs_wf w -> logs_wf (failed E err w).
Proof. apply appended_wf. Qed.

#[local] Hint Resolve failed_wf : logs.

Lemma V2_callSoapApi_run E p w :
  V2.callSoapApi E p w = (lookup_with V2.parseSoapResponse E p, emitted (ESoap p) w).
Proof.
  unfold V2.callSoapApi, bind, lift, lookup_with. rewrite log_effect_run.
  by destruct (soap_exchange E p).
Qed.

Lemma V1_callSoapApi_run E p w :
  V1.callSoapApi E p w = (lookup_with V1.parseSoapResponse E p, emitted (ESoap p) w).
Proof.
  unfold V1.callSoapApi, bind, lift, lookup_with. rewrite log_effect_run.
  by destruct (soap_exchange E p).
Qed.

Lemma V2_on_error_run E err w :
  logs_wf w -> V2.on_error E err w = (Ok (error_response err), failed E err w).
Proof. intros Hwf. unfold V2.on_error, bind. by rewrite writeLog_run. Qed.

Lemma V1_on_error_run E err w :
  logs_wf w -> V1.on_error E err w = (Ok (error_response err), failed E err w).
Proof. intros Hwf. unfold V1.on_error, bind. by rewrite writeLog_run. Qed.

Lemma isPermitExpired_returns E v w :
  exists b w2, isPermitExpired E v w = (Ok b, w2).
Proof.
  unfold isPermitExpired. destruct (truthy v); cbn [negb]; unfold bind, newDate, ret;
    eauto.
Qed.

Lemma get_prop_defined o k x k' :
  get_prop o k = Ok x -> exists y, get_prop o k' = Ok y.
Proof. destruct o; cbn; try done; eauto. Qed.

Lemma V2_parseSoapResponse_keys parsed soapData :
  V2.parseSoapResponse parsed = Ok soapData ->
  exists ps,
    soapData = VObj ps /\
    map fst ps = ["permitNumber"; "containerNumber"; "vehicleNumber";
                  "isPermitValidTill"].
Proof.
  unfold V2.parseSoapResponse. destruct (permitDTLS parsed) as [d|]; [|done].
  destruct d; simpl; try done; intros [= <-]; eexists; split; reflexivity.
Qed.

Lemma lookup2_object E p soapData :
  lookup_with V2.parseSoapResponse E p = Ok soapData -> exists ps, soapData = VObj ps.
Proof.
  unfold lookup_with. destruct (soap_exchange E p) as [parsed|]; [|done].
  intros H. destruct (V2_parseSoapResponse_keys _ _ H) as (ps & -> & _). eauto.
Qed.

Lemma lookup1_no_validity E p soapData :
  lookup_with V1.parseSoapResponse E p = Ok soapData ->
  get_prop soapData "isPermitValidTill" = Ok VUndefined.
Proof.
  unfold lookup_with. destruct (soap_exchange E p) as [parsed|]; [|done].
  apply V1_parseSoapResponse_no_validity.
Qed.

Lemma V2_validate_outcome E client w :
  logs_wf w ->
  exists r w', V2.validate E client w = (Ok r, w') /\ outcome2 E client w r w'.
Proof.
  intros Hwf. unfold V2.validate, try_catch. unfold bind at 1. run_step.
  unfold bind at 1, lift at 1.
  destruct (get_prop client "permitNumber") as [p|err] eqn:Hp; cbn beta iota.
  2:{ rewrite V2_on_error_run by eauto with logs. do 2 eexists. split; [done|].
      by apply Rejected2. }
  unfold bind at 1. rewrite V2_callSoapApi_run.
  destruct (lookup_with V2.parseSoapResponse E p) as [soapData|err] eqn:Hl;
    cbn beta iota.
  2:{ rewrite V2_on_error_run by eauto with logs. do 2 eexists. split; [done|].
      by eapply Unavailable2. }
  destruct (lookup2_object _ _ _ Hl) as [ps ->].
  set (soapData := VObj ps) in *.
  set (w1 := emitted (ESoap p) (appended E "incoming.log.json" client w)).
  assert (Hwf1 : logs_wf w1) by (subst w1; eauto with logs).
  destruct (get_prop soapData "isPermitValidTill") as [v|] eqn:Hv; [|done].
  destruct (isPermitExpired_returns E v w1) as ([|] & w2 & Hexp).
  - rewrite (V2_respond_expired E client soapData v w1 w2 Hwf1 Hv Hexp).
    do 2 eexists. split; [done|]. by eapply Expired2.
  - assert (Hwf2 : logs_wf w2) by eauto with logs.
    destruct (V2.mismatches client soapData) as [ms|err] eqn:Hms.
    + rewrite (V2_respond_decided E client soapData v w1 w2 Hwf1 Hv ms Hexp Hms).
      destruct ms as [|d ms]; do 2 eexists; (split; [done|]).
      * by eapply Matched2.
      * by eapply Mismatched2.
    + unfold V2.respond, bind at 1, lift at 1. rewrite Hv. cbn beta iota.
      unfold bind at 1. rewrite Hexp. cbn beta iota.
      unfold bind at 1, lift at 1. rewrite Hms. cbn beta iota.
      rewrite V2_on_error_run by done. do 2 eexists. split; [done|].
      by eapply Crashed2.
Qed.

Lemma strict_eq_true c : strict_eq c (VBool true) = true -> c = VBool true.
Proof. by destruct c as [ | | [|] | | | | ]. Qed.

Lemma V1_validate_outcome E client w :
  logs_wf w ->
  exists r w', V1.validate E client w = (Ok r, w') /\ outcome1 E client w r w'.
Proof.
  intros Hwf. unfold V1.validate, try_catch. unfold bind at 1. run_step.
  unfold bind at 1, lift at 1.
  destruct (get_prop client "confirmedByUser") as [c|err] eqn:Hc; cbn beta iota.
  2:{ rewrite V1_on_error_run by eauto with logs. do 2 eexists. split; [done|].
      by apply Rejected1. }
  destruct (strict_eq c (VBool true)) eqn:Hconf.
  { apply strict_eq_true in Hconf. subst c.
    rewrite V1_manual_run by eauto with logs. do 2 eexists. split; [done|].
    by apply Manual1. }
  assert (Hne : c <> VBool true) by (by intros ->).
  destruct (get_prop_defined _ _ _ "permitNumber" Hc) as [p Hp].
  unfold bind at 1, lift at 1. rewrite Hp. cbn beta iota.
  unfold bind at 1. rewrite V1_callSoapApi_run.
  destruct (lookup_with V1.parseSoapResponse E p) as [soapData|err] eqn:Hl;
    cbn beta iota.
  2:{ rewrite V1_on_error_run by eauto with logs. do 2 eexists. split; [done|].
      by eapply Unavailable1. }
  pose proof (lookup1_no_validity _ _ _ Hl) as Hv.
  set (w1 := emitted (ESoap p)
               (appended E "incoming.log.json" (VObj [("body", client)]) w)).
  assert (Hwf1 : logs_wf w1) by (subst w1; eauto with logs).
  rewrite (V1_respond_expired E client soapData VUndefined w1 w1 Hwf1 Hv eq_refl).
  do 2 eexists. split; [done|]. by eapply Expired1.
Qed.






(** ** Effects and log entries of one request *)

Lemma effects_since_app w w' l :
  trace w' = (trace w ++ l)%list -> effects_since w w' = l.
Proof. intros H. unfold effects_since. by rewrite H, drop_app_length. Qed.

(** Brings the trace of a final world to the form [trace w ++ l]. *)
Ltac effects_compute :=
  apply effects_since_app; unfold failed, forwarded;
  repeat match goal with
         | |- context [post_outcome ?E ?p] => destruct (post_outcome E p)
         end;
  autorewrite with world; rewrite <- ?app_assoc; reflexivity.

(** Proves that an effect is in a list written out. *)
Ltac in_list :=
  cbn [app]; repeat first [apply list_elem_of_here | apply list_elem_of_further].

(** X3.  A request to the second variant first writes the incoming entry
    and asks the authority at most once, for the request's permit number.
    A request answered 200, 409 or 422 emits exactly one event, as its last
    effect: [gate:matched], [gate:mismatch] or [gate:invalid]; the event's
    payload is the data of an entry written to the log of that outcome, and
    it is forwarded exactly when the answer is 200.  A request answered 500
    emits no event and forwards nothing. *)
Theorem second_variant_effects_follow_status E client w :
  logs_wf w ->
  exists r w' l,
    V2.validate E client w = (Ok r, w') /\
    effects_since w w'
    = EWrite "incoming.log.json" (entry_at E (ticks w) client) :: l /\
    (soap_requests l = [] \/
     exists p, get_prop client "permitNumber" = Ok p /\ soap_requests l = [p]) /\
    match event_of (status r) with
    | Some name =>
        exists payload n,
          emitted_events l = [(name, payload)] /\
          last l = Some (EEmit name payload) /\
          EWrite (outcome_log (status r)) (entry_at E n payload) ∈ l /\
          forwards l = if status r =? 200 then [payload] else []
    | None => emitted_events l = [] /\ forwards l = []
    end.
Proof.
  intros Hwf. destruct (V2_validate_outcome E client w Hwf) as (r & w' & Hrun & Hout).
  exists r, w'.
  destruct Hout as [err Hp | p err Hp Hl | p soapData v w2 Hp Hl Hv Hexp
                   | p soapData v w2 err Hp Hl Hv Hexp Hms
                   | p soapData v w2 Hp Hl Hv Hexp Hms
                   | p soapData v w2 d ms Hp Hl Hv Hexp Hms].
  - eexists. split; [done|]. split; [effects_compute|]. cbn. split; [by left|done].
  - eexists. split; [done|]. split; [effects_compute|]. cbn.
    split; [right; by eauto|done].
  - destruct (isPermitExpired_world _ _ _ _ _ Hexp) as [-> | ->];
      (eexists; split; [done|]; split; [effects_compute|]); cbn;
      (split; [eauto|]); do 2 eexists; repeat split; in_list.
  - apply isPermitExpired_fresh in Hexp as (-> & _).
    eexists. split; [done|]. split; [effects_compute|]. cbn.
    split; [right; by eauto|done].
  - apply isPermitExpired_fresh in Hexp as (-> & _).
    unfold forwarded in *.
    destruct (post_outcome E (V2.matched_payload client soapData)) eqn:Hpost;
      (eexists; split; [done|]; split;
       [apply effects_since_app; autorewrite with world; rewrite <- ?app_assoc;
        reflexivity|]); cbn;
      (split; [eauto|]); do 2 eexists; repeat split; in_list.
  - apply isPermitExpired_fresh in Hexp as (-> & _).
    eexists. split; [done|]. split; [effects_compute|]. cbn.
    split; [eauto|]. do 2 eexists. repeat split. in_list.
Qed.

(** X4.  The same for the first variant, whose incoming entry wraps the
    body: at most one request to the authority, and none at all when the
    answer is 200; one event, emitted last, for 200 ([gate:matched]) and 422
    ([gate:invalid]), with the payload of the entry logged for that outcome;
    the payload is forwarded exactly when the answer is 200; a request
    answered 500 emits and forwards nothing. *)
Theorem first_variant_effects_follow_status E client w :
  logs_wf w ->
  exists r w' l,
    V1.validate E client w = (Ok r, w') /\
    effects_since w w'
    = EWrite "incoming.log.json" (entry_at E (ticks w) (VObj [("body", client)])) :: l /\
    (soap_requests l = [] \/
     exists p, get_prop client "permitNumber" = Ok p /\ soap_requests l = [p]) /\
    (status r = 200 -> soap_requests l = []) /\
    match event_of (status r) with
    | Some name =>
        exists payload n,
          emitted_events l = [(name, payload)] /\
          last l = Some (EEmit name payload) /\
          EWrite (outcome_log (status r)) (entry_at E n payload) ∈ l /\
          forwards l = if status r =? 200 then [payload] else []
    | None => emitted_events l = [] /\ forwards l = []
    end.
Proof.
  intros Hwf. destruct (V1_validate_outcome E client w Hwf) as (r & w' & Hrun & Hout).
  exists r, w'.
  destruct Hout as [err Hc | Hc | c p err Hc Hne Hp Hl | c p soapData Hc Hne Hp Hl];
    repeat match goal with x := _ |- _ => subst x end.
  - eexists. split; [done|]. split; [effects_compute|]. cbn.
    split; [by left|]. done.
  - unfold forwarded in *.
    destruct (post_outcome E _) eqn:Hpost;
      (eexists; split; [done|]; split;
       [apply effects_since_app; autorewrite with world; rewrite <- ?app_assoc;
        reflexivity|]); cbn;
      (split; [by left|]); (split; [done|]); do 2 eexists; repeat split; in_list.
  - eexists. split; [done|]. split; [effects_compute|]. cbn.
    split; [right; by eauto|]. done.
  - eexists. split; [done|]. split; [effects_compute|]. cbn.
    split; [right; by eauto|]. split; [done|].
    do 2 eexists. repeat split. in_list.
Qed.

(** Settles what a written-out final world holds in the files that a
    request can write. *)
Ltac histories :=
  autorewrite with world; repeat case_decide; try done; cbn; try done.

Lemma V2_request_histories E client w :
  logs_wf w ->
  exists r w' e0 e,
    V2.validate E client w = (Ok r, w') /\
    history "incoming.log.json" w' = (history "incoming.log.json" w ++ [e0])%list /\
    forall f, f ∈ outcome_logs ->
      history f w' = if String.eqb f (outcome_log (status r))
                     then (history f w ++ [e])%list else history f w.
Proof.
  intros Hwf.
  destruct (V2_validate_outcome E client w Hwf) as (r & w' & Hrun & Hout).
  exists r, w'.
  destruct Hout as [err Hp | p err Hp Hl | p soapData v w2 Hp Hl Hv Hexp
                   | p soapData v w2 err Hp Hl Hv Hexp Hms
                   | p soapData v w2 Hp Hl Hv Hexp Hms
                   | p soapData v w2 d ms Hp Hl Hv Hexp Hms];
    try (destruct (isPermitExpired_world _ _ _ _ _ Hexp) as [-> | ->]);
    unfold failed, forwarded in *;
    try destruct (post_outcome E _);
    do 2 eexists; (split; [done|]); (split; [by histories|]);
    intros f Hf; unfold outcome_logs in Hf;
    repeat (apply elem_of_cons in Hf as [-> | Hf]);
    try (by apply elem_of_nil in Hf); histories.
Qed.

Lemma V1_request_histories E client w :
  logs_wf w ->
  exists r w' e0 e,
    V1.validate E client w = (Ok r, w') /\
    history "incoming.log.json" w' = (history "incoming.log.json" w ++ [e0])%list /\
    forall f, f ∈ outcome_logs ->
      history f w' = if String.eqb f (outcome_log (status r))
                     then (history f w ++ [e])%list else history f w.
Proof.
  intros Hwf.
  destruct (V1_validate_outcome E client w Hwf) as (r & w' & Hrun & Hout).
  exists r, w'.
  destruct Hout as [err Hc | Hc | c p err Hc Hne Hp Hl | c p soapData Hc Hne Hp Hl];
    repeat match goal with x := _ |- _ => subst x end;
    unfold failed, forwarded in *;
    try destruct (post_outcome E _);
    do 2 eexists; (split; [done|]); (split; [by histories|]);
    intros f Hf; unfold outcome_logs in Hf;
    repeat (apply elem_of_cons in Hf as [-> | Hf]);
    try (by apply elem_of_nil in Hf); histories.
Qed.

(** X5.  In both variants a request adds exactly one entry to the incoming
    log and exactly one entry to exactly one of the matched, mismatch,
    invalid and error logs, the one that goes with the status of the
    response (200, 409, 422, 500); the other three keep their history. *)
Theorem request_logs_one_outcome E client w :
  logs_wf w ->
  (exists r w' e0 e,
     V2.validate E client w = (Ok r, w') /\
     history "incoming.log.json" w' = (history "incoming.log.json" w ++ [e0])%list /\
     forall f, f ∈ outcome_logs ->
       history f w' = if String.eqb f (outcome_log (status r))
                      then (history f w ++ [e])%list else history f w) /\
  (exists r w' e0 e,
     V1.validate E client w = (Ok r, w') /\
     history "incoming.log.json" w' = (history "incoming.log.json" w ++ [e0])%list /\
     forall f, f ∈ outcome_logs ->
       history f w' = if String.eqb f (outcome_log (status r))
                      then (history f w ++ [e])%list else history f w).
Proof.
  intros Hwf. split.
  - by apply V2_request_histories.
  - by apply V1_request_histories.
Qed.

(** ** Failures *)

Lemma lookup_with_fails parse E p err :
  soap_exchange E p = Throw err \/
  (exists parsed, soap_exchange E p = Ok parsed /\ parse parsed = Throw err) ->
  lookup_with parse E p = Throw err.
Proof.
  unfold lookup_with. intros [-> | (parsed & -> & ->)]; done.
Qed.

(** X6.  When the authority cannot be reached, or its reply does not have
    the expected structure, the request is answered with status 500 and the
    message of the failure under [error]; its effects are the incoming
    entry, the one SOAP request and an entry in the error log that holds the
    same message under [error]; no event is emitted and nothing is
    forwarded.  This holds in both variants (in the first for a request that
    is not manually confirmed). *)
Theorem authority_failure_is_internal_error E client p err w :
  logs_wf w ->
  get_prop client "permitNumber" = Ok p ->
  (soap_exchange E p = Throw err \/
   (exists parsed,
      soap_exchange E p = Ok parsed /\ V2.parseSoapResponse parsed = Throw err) ->
   exists w',
     V2.validate E client w = (Ok (error_response err), w') /\
     effects_since w w'
     = [EWrite "incoming.log.json" (entry_at E (ticks w) client);
        ESoap p;
        EWrite "error.log.json" (entry_at E (S (ticks w)) (error_entry err))]) /\
  (forall c,
     get_prop client "confirmedByUser" = Ok c ->
     c <> VBool true ->
     soap_exchange E p = Throw err \/
     (exists parsed,
        soap_exchange E p = Ok parsed /\ V1.parseSoapResponse parsed = Throw err) ->
     exists w',
       V1.validate E client w = (Ok (error_response err), w') /\
       effects_since w w'
       = [EWrite "incoming.log.json" (entry_at E (ticks w) (VObj [("body", client)]));
          ESoap p;
          EWrite "error.log.json" (entry_at E (S (ticks w)) (error_entry err))]) /\
  status (error_response err) = 500 /\
  body (error_response err) = VObj [("error", VStr (message err))] /\
  get_prop (body (error_response err)) "error" = Ok (VStr (message err)) /\
  entry_at E (S (ticks w)) (error_entry err)
  = VObj [("timestamp", VStr (iso_string E (clock E (S (ticks w)))));
          ("error", VStr (message err))].
Proof.
  intros Hwf Hp. split; [|split; [|by vm_compute]].
  - intros Hfail%lookup_with_fails.
    destruct (V2_validate_outcome E client w Hwf) as (r & w' & Hrun & Hout).
    destruct Hout; try congruence.
    assert (p0 = p) as -> by congruence. assert (err0 = err) as -> by congruence.
    eexists. split; [done|]. effects_compute.
  - intros c Hc Hne Hfail%lookup_with_fails.
    destruct (V1_validate_outcome E client w Hwf) as (r & w' & Hrun & Hout).
    destruct Hout; try congruence.
    assert (p0 = p) as -> by congruence. assert (err0 = err) as -> by congruence.
    eexists. split; [done|]. effects_compute.
Qed.

(** X7.  A request without a body ([req.body] is [undefined] or [null]) is
    answered in both variants with status 500 and, under [error], the
    message of the TypeError of the first property read (of [permitNumber]
    in the second variant, of [confirmedByUser] in the first); the incoming
    entry is still written first, the same message is logged in the error
    log, and the authority is never asked. *)
Theorem request_without_body_is_rejected E client w :
  logs_wf w ->
  client = VUndefined \/ client = VNull ->
  let what := match client with VNull => "null" | _ => "undefined" end in
  let msg2 := "Cannot read properties of " +:+ what +:+ " (reading 'permitNumber')" in
  let msg1 := "Cannot read properties of " +:+ what +:+ " (reading 'confirmedByUser')" in
  (exists r w',
     V2.validate E client w = (Ok r, w') /\
     r = error_response (TypeError msg2) /\
     status r = 500 /\
     body r = VObj [("error", VStr msg2)] /\
     effects_since w w'
     = [EWrite "incoming.log.json"
          (VObj [("timestamp", VStr (iso_string E (clock E (ticks w))))]);
        EWrite "error.log.json"
          (VObj [("timestamp", VStr (iso_string E (clock E (S (ticks w)))));
                 ("error", VStr msg2)])]) /\
  (exists r w',
     V1.validate E client w = (Ok r, w') /\
     r = error_response (TypeError msg1) /\
     status r = 500 /\
     body r = VObj [("error", VStr msg1)] /\
     effects_since w w'
     = [EWrite "incoming.log.json"
          (VObj [("timestamp", VStr (iso_string E (clock E (ticks w))));
                 ("body", client)]);
        EWrite "error.log.json"
          (VObj [("timestamp", VStr (iso_string E (clock E (S (ticks w)))));
                 ("error", VStr msg1)])]).
Proof.
  intros Hwf Hc what msg2 msg1. split.
  - destruct (V2_validate_outcome E client w Hwf) as (r & w' & Hrun & Hout).
    destruct Hout as [err Hp | p err Hp | p ? ? ? Hp | p ? ? ? ? Hp
                     | p ? ? ? Hp | p ? ? ? ? ? Hp];
      try (by destruct Hc as [-> | ->]).
    do 2 eexists. split; [done|].
    destruct Hc as [-> | ->]; injection Hp as <-;
      (split; [done|]); (split; [done|]); (split; [done|]); effects_compute.
  - destruct (V1_validate_outcome E client w Hwf) as (r & w' & Hrun & Hout).
    destruct Hout as [err Hp | Hp | c p err Hp | c p ? Hp];
      try (by destruct Hc as [-> | ->]).
    do 2 eexists. split; [done|].
    destruct Hc as [-> | ->]; injection Hp as <-;
      (split; [done|]); (split; [done|]); (split; [done|]); effects_compute.
Qed.

(** ** Reconciliation *)

Lemma string_method_or_throws callee f v :
  (exists err, string_method callee f (js_or v (VStr EmptyString)) = Throw err) <->
  truthy v = true /\ forall s, v <> VStr s.
Proof.
  unfold js_or. destruct (truthy v) eqn:Ht.
  - destruct v; cbn in Ht |- *; try done.
    + split; [by intros _|by eauto].
    + split; [by intros _|by eauto].
    + split; [by intros [err H]|]. intros [_ H]. by destruct (H s).
    + split; [by intros _|by eauto].
    + split; [by intros _|by eauto].
  - cbn. split; [by intros [err H]|by intros [H _]].
Qed.

(** A truthy value that is not a string: what [.substring] and
    [.toUpperCase] cannot be called on. *)
Lemma policy_throws client cp g :
  get_prop client "permitNumber" = Ok cp ->
  get_prop client "gateType" = Ok g ->
  ((exists err, V2.policy client = Throw err) <->
   (truthy cp = true /\ forall s, cp <> VStr s) \/
   (truthy g = true /\ forall s, g <> VStr s)).
Proof.
  intros Hcp Hg. unfold V2.policy. rewrite Hcp, Hg.
  rewrite <- (string_method_or_throws "permit.substring" (String.substring 0 3) cp).
  rewrite <- (string_method_or_throws upper_callee toUpperCase g).
  destruct (string_method "permit.substring" _ _) as [prefix|e1];
    destruct (string_method upper_callee _ _) as [gate|e2];
    split; eauto; intros H; try done.
  - by destruct H as [err H].
  - by destruct H as [[err H] | [err H]].
Qed.

(** X8.  On a request body and an authority record that are objects, the
    second variant's mismatch computation fails exactly when the permit
    number or the gate type is truthy but not a string (the call of
    [substring] or [toUpperCase] throws); the first variant's never fails. *)
Theorem reconciliation_fails_on_non_strings cps sps cp g :
  get_prop (VObj cps) "permitNumber" = Ok cp ->
  get_prop (VObj cps) "gateType" = Ok g ->
  ((exists err, V2.mismatches (VObj cps) (VObj sps) = Throw err) <->
   (truthy cp = true /\ forall s, cp <> VStr s) \/
   (truthy g = true /\ forall s, g <> VStr s)) /\
  (exists ms, V1.mismatches (VObj cps) (VObj sps) = Ok ms).
Proof.
  intros Hcp Hg. split.
  - rewrite <- (policy_throws (VObj cps) cp g Hcp Hg).
    unfold V2.mismatches. destruct (V2.policy (VObj cps)) as [require|err].
    + split; [|by intros [err H]].
      unfold V2.vehicle_check, V2.container_check. cbn.
      repeat match goal with
             | |- context [if ?b then _ else _] => destruct b; cbn
             end; by intros [err H].
    + split; eauto.
  - unfold V1.mismatches, V1.permit_check, V1.container_check. cbn.
    repeat match goal with
           | |- context [if ?b then _ else _] => destruct b; cbn
           end; eauto.
Qed.

Lemma isPermitExpired_true E v w w2 :
  isPermitExpired E v w = (Ok true, w2) ->
  truthy v = false \/ exists t, date_value E v = Some t /\ t < clock E (ticks w).
Proof.
  unfold isPermitExpired. destruct (truthy v); cbn [negb]; [|by left].
  unfold bind, newDate, ret. intros [= Hb _]. right.
  destruct (date_value E v) as [t|]; [|done]. exists t. split; [done|].
  by apply Z.ltb_lt.
Qed.

(** X9.  In the second variant a looked-up record is answered 422 exactly
    when its validity indicator is falsy (absent, [null], the empty string)
    or [Date] reads it as a time strictly before the clock reading of the
    check.  An indicator that [Date] cannot read, such as a yes/no flag, and
    one equal to the current time, are not expired. *)
Theorem expired_exactly_when_past_or_falsy E client p soapData v w :
  logs_wf w ->
  get_prop client "permitNumber" = Ok p ->
  lookup_with V2.parseSoapResponse E p = Ok soapData ->
  get_prop soapData "isPermitValidTill" = Ok v ->
  exists r w',
    V2.validate E client w = (Ok r, w') /\
    (status r = 422 <->
     truthy v = false \/
     exists t, date_value E v = Some t /\ t < clock E (S (ticks w))).
Proof.
  intros Hwf Hp Hl Hv.
  destruct (V2_validate_outcome E client w Hwf) as (r & w' & Hrun & Hout).
  exists r, w'. split; [done|].
  destruct Hout as [err Hp' | p' err Hp' Hl' | p' sd v' w2 Hp' Hl' Hv' Hexp
                   | p' sd v' w2 err Hp' Hl' Hv' Hexp Hms
                   | p' sd v' w2 Hp' Hl' Hv' Hexp Hms
                   | p' sd v' w2 d ms Hp' Hl' Hv' Hexp Hms];
    try congruence;
    assert (p' = p) as -> by congruence;
    try (assert (sd = soapData) as -> by congruence);
    try (assert (v' = v) as -> by congruence);
    try congruence.
  - split; [intros _|done]. by apply isPermitExpired_true in Hexp.
  - apply isPermitExpired_fresh in Hexp as (_ & Ht & Hd). cbn.
    split; [done|]. intros [Hf | (t & Hdt & Hlt)]; [congruence|].
    specialize (Hd t Hdt). autorewrite with world in Hd. lia.
  - apply isPermitExpired_fresh in Hexp as (_ & Ht & Hd). cbn.
    split; [done|]. intros [Hf | (t & Hdt & Hlt)]; [congruence|].
    specialize (Hd t Hdt). autorewrite with world in Hd. lia.
  - apply isPermitExpired_fresh in Hexp as (_ & Ht & Hd). cbn.
    split; [done|]. intros [Hf | (t & Hdt & Hlt)]; [congruence|].
    specialize (Hd t Hdt). autorewrite with world in Hd. lia.
Qed.

Lemma strict_ne_same_string s : strict_ne (VStr s) (VStr s) = false.
Proof. unfold strict_ne. cbn. by rewrite String.eqb_refl. Qed.

(** X10.  A request that repeats the authority's values is never reported
    as a mismatch.  In the second variant: when the vehicle numbers are the
    same non-empty string and the container numbers are the same string,
    every computed mismatch list is empty.  In the first variant: when the
    permit numbers are the same string and the container numbers are the
    same string, the mismatch list is empty. *)
Theorem agreeing_request_has_no_mismatch client soapData c :
  get_prop client "containerNumber" = Ok (VStr c) ->
  get_prop soapData "containerNumber" = Ok (VStr c) ->
  (forall s ms,
     s <> EmptyString ->
     get_prop client "vehicleNumber" = Ok (VStr s) ->
     get_prop soapData "vehicleNumber" = Ok (VStr s) ->
     V2.mismatches client soapData = Ok ms ->
     ms = []) /\
  (forall s,
     get_prop client "permitNumber" = Ok (VStr s) ->
     get_prop soapData "permitNumber" = Ok (VStr s) ->
     V1.mismatches client soapData = Ok []).
Proof.
  intros Hcc Hsc. split.
  - intros s ms Hne Hcv Hsv Hms.
    destruct (V2_mismatches_split _ _ _ Hms) as (r & m1 & m2 & _ & H1 & H2 & ->).
    rewrite (V2_vehicle_check_spec _ _ _ _ _ Hcv Hsv H1).
    rewrite (V2_container_check_spec _ _ _ _ _ _ Hcc Hsc H2).
    rewrite !strict_ne_same_string, !andb_false_r.
    assert (truthy (VStr s) = true) as ->; [|done].
    cbn. by destruct s.
  - intros s Hcp Hsp. unfold V1.mismatches, V1.permit_check, V1.container_check.
    rewrite Hcp, Hsp, Hcc, Hsc, !strict_ne_same_string.
    by destruct (truthy (VStr c)).
Qed.

Lemma string_method_or_string callee f t :
  string_method callee f (js_or (VStr t) (VStr EmptyString)) = Ok (f t).
Proof. unfold js_or. by destruct t. Qed.

Lemma string_method_or_ok callee f v s :
  string_method callee f (js_or v (VStr EmptyString)) = Ok s ->
  (exists t, v = VStr t /\ s = f t) \/ (truthy v = false /\ s = f EmptyString).
Proof.
  unfold js_or. destruct (truthy v) eqn:Ht.
  - destruct v; cbn; try done. intros [= <-]. eauto.
  - cbn. intros [= <-]. eauto.
Qed.

Lemma requireContainer_table gate prefix :
  V2.requireContainer gate prefix = true <->
  (gate = "GATE_IN" /\ prefix = "PMA") \/
  (gate = "GATE_OUT" /\ (prefix = "PMD" \/ prefix = "GPC")).
Proof.
  unfold V2.requireContainer. cbn [existsb].
  rewrite !orb_true_iff, !andb_true_iff, !orb_true_iff, !String.eqb_eq.
  intuition congruence.
Qed.

(** X11.  The second variant requires the container check exactly for these
    requests: permit number and gate type are strings, and either the upper
    case of the gate type is GATE_IN and the permit number starts with PMA,
    or the upper case of the gate type is GATE_OUT and the permit number
    starts with PMD or GPC.  The upper case is that of [toUpperCase]: any
    letter case of the gate type will do, and so will a dotless i in place
    of the I.  A request without gate type or without permit number never
    requires it. *)
Theorem container_policy_table client cp g :
  get_prop client "permitNumber" = Ok cp ->
  get_prop client "gateType" = Ok g ->
  (V2.policy client = Ok true <->
   exists permit gate,
     cp = VStr permit /\ g = VStr gate /\
     ((toUpperCase gate = "GATE_IN" /\ String.substring 0 3 permit = "PMA") \/
      (toUpperCase gate = "GATE_OUT" /\
       (String.substring 0 3 permit = "PMD" \/ String.substring 0 3 permit = "GPC")))) /\
  (truthy cp = false \/ truthy g = false -> V2.policy client <> Ok true).
Proof.
  intros Hcp Hg. unfold V2.policy. rewrite Hcp, Hg.
  assert (Hfwd :
    forall prefix gate,
      string_method "permit.substring" (String.substring 0 3)
        (js_or cp (VStr EmptyString)) = Ok prefix ->
      string_method upper_callee toUpperCase
        (js_or g (VStr EmptyString)) = Ok gate ->
      V2.requireContainer gate prefix = true ->
      exists permit gate0,
        cp = VStr permit /\ g = VStr gate0 /\
        gate = toUpperCase gate0 /\ prefix = String.substring 0 3 permit).
  { intros prefix gate H1 H2 Hreq. apply requireContainer_table in Hreq.
    apply string_method_or_ok in H1 as [(permit & -> & ->) | (_ & ->)];
      apply string_method_or_ok in H2 as [(gate0 & -> & ->) | (_ & ->)];
      cbn in Hreq; try (by intuition discriminate).
    by exists permit, gate0. }
  split.
  - split.
    + destruct (string_method "permit.substring" _ _) as [prefix|] eqn:H1; [|done].
      destruct (string_method upper_callee _ _)
        as [gate|] eqn:H2; [|done].
      intros [= Hreq].
      destruct (Hfwd prefix gate eq_refl eq_refl Hreq)
        as (permit & gate0 & -> & -> & -> & ->).
      exists permit, gate0. split; [done|]. split; [done|].
      by apply requireContainer_table.
    + intros (permit & gate & -> & -> & H).
      rewrite !string_method_or_string. f_equal. by apply requireContainer_table.
  - intros Hfalsy.
    destruct (string_method "permit.substring" _ _) as [prefix|] eqn:H1; [|done].
    destruct (string_method upper_callee _ _)
      as [gate|] eqn:H2; [|done].
    intros [= Hreq].
    destruct (Hfwd prefix gate eq_refl eq_refl Hreq)
      as (permit & gate0 & -> & -> & -> & ->).
    apply requireContainer_table in Hreq.
    destruct Hfalsy as [Hf | Hf]; cbn in Hf.
    + destruct permit; [|done]. cbn in Hreq. intuition discriminate.
    + destruct gate0; [|done]. cbn in Hreq. intuition discriminate.
Qed.

(** ** The log helpers on any log directory *)

(** X12.  [writeLog] returns normally exactly when the file is missing,
    empty, unparsable, or holds a JSON array; on a file that holds any other
    JSON value the push throws, and then no file is written and no effect
    is recorded. *)
Theorem writeLog_needs_an_array_or_nothing E file data w :
  ((exists w', writeLog E file data w = (Ok tt, w')) <->
   match files w !! file with
   | Some (FJson v) => exists items, v = VArr items
   | Some FEmpty | Some FGarbage | None => True
   end) /\
  (forall err w',
     writeLog E file data w = (Throw err, w') ->
     files w' = files w /\ trace w' = trace w).
Proof.
  unfold writeLog, bind, readStored, nowISO, bind, newDate, ret, throw, writeFileSync.
  destruct (files w !! file) as [[|v|]|] eqn:Hf; cbn.
  1,3,4: split; [split; eauto|done].
  destruct v; cbn; (split; [split|]);
    try (by intros [w' H]); try (by intros [items H]); eauto;
    by intros err w' [= _ <-].
Qed.

(** X13.  A log file that is missing, empty or unparsable reads as the
    empty history, and the next append starts the history afresh: what
    [readLog] returns afterwards is the one new entry. *)
Theorem unreadable_history_is_reset E file data w :
  files w !! file = None \/ files w !! file = Some FEmpty \/
  files w !! file = Some FGarbage ->
  readLog file w = (Ok (VArr []), w) /\
  exists w',
    writeLog E file data w = (Ok tt, w') /\
    readLog file w' = (Ok (VArr [jsonify (entry_at E (ticks w) data)]), w').
Proof.
  intros Hf.
  assert (Hs : stored (files w !! file) = VArr []).
  { by destruct Hf as [-> | [-> | ->]]. }
  split; [by unfold readLog, readStored; rewrite Hs|].
  eexists. split.
  - unfold writeLog, bind, readStored. rewrite Hs. reflexivity.
  - unfold readLog, readStored. cbn [files]. rewrite lookup_insert_eq.
    cbn [stored app]. rewrite jsonify_arr. cbn [map].
    rewrite json_elem_defined; [done|]. unfold object_spread. discriminate.
Qed.

(** X14.  Whatever its outcome, [writeLog] leaves every other file of the
    log directory as it was: the categories are independent. *)
Theorem writeLog_touches_one_file E file data w r w' other :
  writeLog E file data w = (r, w') ->
  other <> file ->
  files w' !! other = files w !! other /\
  readLog other w' = (fst (readLog other w), w').
Proof.
  intros Hrun Hne.
  assert (Hfiles : files w' !! other = files w !! other).
  { revert Hrun.
    unfold writeLog, bind, readStored, nowISO, bind, newDate, ret, throw, writeFileSync.
    destruct (stored (files w !! file)); cbn; intros [= _ <-]; cbn [files]; try done.
    by rewrite lookup_insert_ne. }
  split; [done|]. unfold readLog, readStored. cbn [fst]. by rewrite Hfiles.
Qed.

(** ** The query routes *)

Lemma fetch_run c w :
  logs_wf w ->
  fetch c w
  = (Ok (json (VObj [("success", VBool true);
                     ("count", VNum (Z.of_nat (length (history c w))));
                     ("data", VArr (history c w))])), w).
Proof.
  intros Hwf. destruct (logs_wf_stored w c Hwf) as [Hs _].
  unfold fetch, bind, readLog, readStored, lift, ret. by rewrite Hs.
Qed.

(** X15.  After any run of appends on a well-formed log directory, a query
    route answers 200 with [data] the history of its category, earlier
    entries first and then one entry per append to that category in append
    order, and with [count] the number of those entries; the route changes
    nothing.  On a log file that holds [null] the route throws, since it
    reads [data.length] outside any [try]. *)
Theorem query_route_reports_history E calls w c :
  logs_wf w ->
  (exists w',
     writeLogs E calls w = (Ok tt, w') /\
     fetch c w'
     = (Ok (json (VObj [("success", VBool true);
                        ("count",
                         VNum (Z.of_nat
                                 (length (history c w) +
                                  length (List.filter
                                            (fun call => String.eqb call.1 c) calls))));
                        ("data",
                         VArr (history c w ++ appended_to E c (ticks w) calls))])),
        w')) /\
  (forall w0, files w0 !! c = Some (FJson VNull) ->
     exists err, fetch c w0 = (Throw err, w0)).
Proof.
  intros Hwf. split.
  - destruct (writeLogs_run E calls w Hwf) as (w' & Hrun & Hwf' & Hh).
    exists w'. split; [done|]. rewrite fetch_run by done.
    by rewrite Hh, length_app, appended_to_length.
  - intros w0 Hf. unfold fetch, bind, readLog, readStored, lift. rewrite Hf. cbn.
    eauto.
Qed.

Lemma history_after_request f r (h h' : list jsval) (e : jsval) code :
  f = outcome_log code ->
  code = 200 \/ code = 409 \/ code = 422 ->
  h' = (if String.eqb f (outcome_log (status r)) then (h ++ [e])%list else h) ->
  (status r = 200 \/ status r = 409 \/ status r = 422 \/ status r = 500) ->
  length h' = (length h + if (status r =? code)%Z then 1 else 0)%nat.
Proof.
  intros -> Hcode -> Hst.
  destruct Hcode as [-> | [-> | ->]], Hst as [-> | [-> | [-> | ->]]]; cbn;
    rewrite ?length_app; cbn; lia.
Qed.

(** X16.  After a request, the three query routes report the counts they
    had before, except that the route of the request's outcome (matched for
    200, mismatch for 409, invalid for 422) reports one more; after a
    request answered 500 all three report what they reported before.  This
    holds in both variants. *)
Theorem query_routes_after_request E client w :
  logs_wf w ->
  let answer (w' : world) (r : response) (file : string) (code : Z) :=
    json (VObj [("success", VBool true);
                ("count",
                 VNum (Z.of_nat (length (history file w) +
                                 if (status r =? code)%Z then 1 else 0)));
                ("data", VArr (history file w'))]) in
  (exists r w',
     V2.validate E client w = (Ok r, w') /\
     get_matched w' = (Ok (answer w' r "matched.log.json" 200), w') /\
     get_mismatch w' = (Ok (answer w' r "mismatch.log.json" 409), w') /\
     get_invalid w' = (Ok (answer w' r "invalid.log.json" 422), w')) /\
  (exists r w',
     V1.validate E client w = (Ok r, w') /\
     get_matched w' = (Ok (answer w' r "matched.log.json" 200), w') /\
     get_mismatch w' = (Ok (answer w' r "mismatch.log.json" 409), w') /\
     get_invalid w' = (Ok (answer w' r "invalid.log.json" 422), w')).
Proof.
  intros Hwf answer. split.
  - destruct (V2_request_histories E client w Hwf) as (r & w' & e0 & e & Hrun & _ & Hh).
    destruct (V2_validate_outcome E client w Hwf) as (r' & w'' & Hrun' & Hout).
    assert (r' = r) as -> by congruence.
    assert (Hst : status r = 200 \/ status r = 409 \/ status r = 422 \/ status r = 500)
      by (destruct Hout; cbn; auto).
    assert (Hwf' : logs_wf w')
      by apply (V2_validate_preserves E client w (Ok r) w' Hwf Hrun).
    assert (Hlen : forall file code,
              file = outcome_log code -> code = 200 \/ code = 409 \/ code = 422 ->
              length (history file w')
              = (length (history file w) + if (status r =? code)%Z then 1 else 0)%nat).
    { intros file code Hfile Hcode.
      eapply history_after_request; eauto. apply Hh.
      destruct Hcode as [-> | [-> | ->]]; subst file; unfold outcome_logs; in_list. }
    exists r, w'. split; [done|].
    unfold get_matched, get_mismatch, get_invalid, answer.
    rewrite !fetch_run by done.
    rewrite <- (Hlen "matched.log.json" 200), <- (Hlen "mismatch.log.json" 409),
      <- (Hlen "invalid.log.json" 422) by auto.
    done.
  - destruct (V1_request_histories E client w Hwf) as (r & w' & e0 & e & Hrun & _ & Hh).
    destruct (V1_validate_outcome E client w Hwf) as (r' & w'' & Hrun' & Hout).
    assert (r' = r) as -> by congruence.
    assert (Hst : status r = 200 \/ status r = 409 \/ status r = 422 \/ status r = 500)
      by (destruct Hout; cbn; auto).
    assert (Hwf' : logs_wf w')
      by apply (V1_validate_preserves E client w (Ok r) w' Hwf Hrun).
    assert (Hlen : forall file code,
              file = outcome_log code -> code = 200 \/ code = 409 \/ code = 422 ->
              length (history file w')
              = (length (history file w) + if (status r =? code)%Z then 1 else 0)%nat).
    { intros file code Hfile Hcode.
      eapply history_after_request; eauto. apply Hh.
      destruct Hcode as [-> | [-> | ->]]; subst file; unfold outcome_logs; in_list. }
    exists r, w'. split; [done|].
    unfold get_matched, get_mismatch, get_invalid, answer.
    rewrite !fetch_run by done.
    rewrite <- (Hlen "matched.log.json" 200), <- (Hlen "mismatch.log.json" 409),
      <- (Hlen "invalid.log.json" 422) by auto.
    done.
Qed.

(** ** The normalizers *)

Lemma find_key_first word pre k post :
  Forall (fun k' => includes word (toLowerCase k') = false) pre ->
  includes word (toLowerCase k) = true ->
  find_key word (pre ++ k :: post) = k.
Proof.
  unfold find_key. intros Hpre Hk.
  induction Hpre as [|k' pre Hk' _ IH]; cbn [app List.find].
  - by rewrite Hk.
  - by rewrite Hk'.
Qed.

Lemma lookup_prop_first word pre k x post :
  Forall (fun kv => includes word (toLowerCase kv.1) = false) pre ->
  includes word (toLowerCase k) = true ->
  lookup_prop k (pre ++ (k, x) :: post) = Some x.
Proof.
  intros Hpre Hk. induction Hpre as [|[k' x'] pre Hk' _ IH]; cbn [app lookup_prop].
  - by rewrite String.eqb_refl.
  - destruct (String.eqb k k') eqn:Heq; [|done].
    apply String.eqb_eq in Heq. subst k'. cbn in Hk'. congruence.
Qed.

Lemma permitDTLS_found ek bk pre post output :
  includes "envelope" (toLowerCase ek) = true ->
  includes "body" (toLowerCase bk) = true ->
  Forall (fun kv => includes "body" (toLowerCase kv.1) = false) pre ->
  permitDTLS
    (VObj [(ek, VObj (pre ++ (bk, VObj [("EmptyTrailerOutput", output)]) :: post))])
  = get_prop output "tns:PermitDTLS".
Proof.
  intros Hek Hbk Hpre. unfold permitDTLS. cbn [object_keys own_props map fst].
  unfold find_key at 1. cbn [List.find]. rewrite Hek. cbn [default].
  cbn [get_prop lookup_prop]. rewrite String.eqb_refl. cbn [default from_option].
  unfold id. cbn [object_keys own_props]. rewrite map_app. cbn [map fst].
  rewrite (find_key_first "body" (map fst pre) bk).
  - cbn [get_prop]. rewrite (lookup_prop_first "body") by done.
    by cbn.
  - by apply Forall_map.
  - done.
Qed.

(** X17.  The normalizers find the record under any name of the envelope
    and of the body element that contains "envelope" and "body" in any
    letter case (so under any namespace prefix), skipping the children of
    the envelope that come before the body and do not have "body" in their
    name (the attributes, the header).  The second variant's record then
    has the permit, container and vehicle numbers and, as
    [isPermitValidTill], the [tns:IsPermitValid] child; the first variant's
    record has the eight fields it maps; a child that is missing reads
    [undefined].  The vehicle number is read from [tns:VechileNumber]. *)
Theorem normalizer_finds_record ek bk pre post fields :
  includes "envelope" (toLowerCase ek) = true ->
  includes "body" (toLowerCase bk) = true ->
  Forall (fun kv => includes "body" (toLowerCase kv.1) = false) pre ->
  let doc :=
    VObj [(ek, VObj (pre ++
                     (bk, VObj [("EmptyTrailerOutput",
                                 VObj [("tns:PermitDTLS", VObj fields)])]) :: post))] in
  let child n := default VUndefined (lookup_prop n fields) in
  V2.parseSoapResponse doc
  = Ok (VObj [("permitNumber", child "tns:PermitNumber");
              ("containerNumber", child "tns:ContainerNumber");
              ("vehicleNumber", child "tns:VechileNumber");
              ("isPermitValidTill", child "tns:IsPermitValid")]) /\
  V1.parseSoapResponse doc
  = Ok (VObj [("permitNumber", child "tns:PermitNumber");
              ("containerNumber", child "tns:ContainerNumber");
              ("containerSize", child "tns:ContainerSize");
              ("containerType", child "tns:ContainerType");
              ("containerStatus", child "tns:ContainerStatus");
              ("vehicleNumber", child "tns:VechileNumber");
              ("slineCode", child "tns:SlineCode");
              ("lddMtFlag", child "tns:LDD_MT_Flg")]).
Proof.
  intros Hek Hbk Hpre doc child. subst doc.
  unfold V2.parseSoapResponse, V1.parseSoapResponse.
  rewrite (permitDTLS_found ek bk pre post _ Hek Hbk Hpre). by cbn.
Qed.

(** X18.  A normalizer throws only when the path to [tns:PermitDTLS] cannot
    be followed or ends in [undefined] or [null].  A [tns:PermitDTLS] that is
    not an object (a text, a list of repeated elements) is accepted and
    gives a record whose fields are all [undefined]; the second variant then
    answers 422, as for an expired permit, and not 500. *)
Theorem normalizer_accepts_empty_record parsed :
  ((exists err, V2.parseSoapResponse parsed = Throw err) <->
   (exists err, permitDTLS parsed = Throw err) \/
   permitDTLS parsed = Ok VUndefined \/ permitDTLS parsed = Ok VNull) /\
  ((exists err, V1.parseSoapResponse parsed = Throw err) <->
   (exists err, permitDTLS parsed = Throw err) \/
   permitDTLS parsed = Ok VUndefined \/ permitDTLS parsed = Ok VNull) /\
  (forall d E client p w,
     permitDTLS parsed = Ok d ->
     (forall ps, d <> VObj ps) -> d <> VUndefined -> d <> VNull ->
     let empty := VObj [("permitNumber", VUndefined); ("containerNumber", VUndefined);
                        ("vehicleNumber", VUndefined);
                        ("isPermitValidTill", VUndefined)] in
     V2.parseSoapResponse parsed = Ok empty /\
     (logs_wf w ->
      get_prop client "permitNumber" = Ok p ->
      soap_exchange E p = Ok parsed ->
      exists w',
        V2.validate E client w = (Ok (invalid_response "PERMIT_EXPIRED" empty), w'))).
Proof.
  split; [|split].
  - unfold V2.parseSoapResponse. destruct (permitDTLS parsed) as [d|err].
    + destruct d; cbn; split; eauto;
        try (by intros [err H]);
        try (by intros [[err H] | [H | H]]).
    + split; eauto.
  - unfold V1.parseSoapResponse. destruct (permitDTLS parsed) as [d|err].
    + destruct d; cbn; split; eauto;
        try (by intros [err H]);
        try (by intros [[err H] | [H | H]]).
    + split; eauto.
  - intros d E client p w Hd Hobj Hu Hn empty.
    assert (Hparse : V2.parseSoapResponse parsed = Ok empty).
    { unfold V2.parseSoapResponse. rewrite Hd.
      destruct d; try done; by destruct (Hobj props). }
    split; [done|]. intros Hwf Hp Hx. eexists.
    eapply V2_validate_expired; eauto.
Qed.

(** ** Requests that fail after the lookup *)

Lemma isPermitExpired_valid E v w :
  truthy v = true ->
  (forall t, date_value E v = Some t -> clock E (ticks w) <= t) ->
  isPermitExpired E v w = (Ok false, ticked w).
Proof.
  intros Ht Hd. unfold isPermitExpired. rewrite Ht. cbn [negb].
  unfold bind, newDate, ret. f_equal. f_equal.
  destruct (date_value E v) as [t|]; [|done]. apply Z.ltb_ge. by apply Hd.
Qed.

Lemma policy_on_non_string client soapData p :
  get_prop client "permitNumber" = Ok p ->
  truthy p = true ->
  (forall s, p <> VStr s) ->
  V2.mismatches client soapData
  = Throw (TypeError "permit.substring is not a function").
Proof.
  intros Hp Ht Hs. unfold V2.mismatches, V2.policy. rewrite Hp. unfold js_or.
  rewrite Ht. destruct p; cbn in Ht |- *; try done. by destruct (Hs s).
Qed.

(** X19.  In the second variant a permit number that is truthy but not a
    string (a number, [true], an array, an object) is sent to the authority
    as it is; when the authority returns a record that is not expired, the
    request is nevertheless answered with status 500 and the message
    "permit.substring is not a function" under [error]: the same message is
    logged in the error log and no decision is logged, emitted or
    forwarded. *)
Theorem non_string_permit_fails_after_lookup E client p soapData v w :
  logs_wf w ->
  get_prop client "permitNumber" = Ok p ->
  truthy p = true ->
  (forall s, p <> VStr s) ->
  lookup_with V2.parseSoapResponse E p = Ok soapData ->
  get_prop soapData "isPermitValidTill" = Ok v ->
  truthy v = true ->
  (forall t, date_value E v = Some t -> clock E (S (ticks w)) <= t) ->
  let err := TypeError "permit.substring is not a function" in
  exists w',
    V2.validate E client w = (Ok (error_response err), w') /\
    effects_since w w'
    = [EWrite "incoming.log.json" (entry_at E (ticks w) client);
       ESoap p;
       EWrite "error.log.json" (entry_at E (2 + ticks w) (error_entry err))] /\
    status (error_response err) = 500 /\
    body (error_response err)
    = VObj [("error", VStr "permit.substring is not a function")] /\
    entry_at E (2 + ticks w) (error_entry err)
    = VObj [("timestamp", VStr (iso_string E (clock E (2 + ticks w))));
            ("error", VStr "permit.substring is not a function")].
Proof.
  intros Hwf Hp Ht Hs Hl Hv Htv Hd err.
  pose proof (policy_on_non_string client soapData p Hp Ht Hs) as Hms.
  subst err.
  destruct (V2_validate_outcome E client w Hwf) as (r & w' & Hrun & Hout).
  assert (Hexp : isPermitExpired E v
                   (emitted (ESoap p) (appended E "incoming.log.json" client w))
                 = (Ok false,
                    ticked (emitted (ESoap p)
                              (appended E "incoming.log.json" client w)))).
  { apply isPermitExpired_valid; [done|]. by autorewrite with world. }
  destruct Hout as [err' Hp' | p' err' Hp' Hl' | p' sd v' w2 Hp' Hl' Hv' Hexp'
                   | p' sd v' w2 err' Hp' Hl' Hv' Hexp' Hms'
                   | p' sd v' w2 Hp' Hl' Hv' Hexp' Hms'
                   | p' sd v' w2 d ms Hp' Hl' Hv' Hexp' Hms'];
    try congruence;
    assert (p' = p) as -> by congruence;
    try congruence;
    assert (sd = soapData) as -> by congruence;
    assert (v' = v) as -> by congruence;
    try (rewrite Hms in Hms'); try congruence.
  assert (w2 = ticked (emitted (ESoap p) (appended E "incoming.log.json" client w)))
    as -> by congruence.
  assert (err' = TypeError "permit.substring is not a function") as -> by congruence.
  eexists. split; [done|]. split; [effects_compute | by vm_compute].
Qed.

(** X20.  A mismatch list has at most two details and at most one per
    field: in the second variant the vehicle detail, if any, then the
    container detail, if any; in the first variant the permit detail, if
    any, then the container detail, if any. *)
Theorem mismatch_list_shape client soapData :
  (forall ms,
     V2.mismatches client soapData = Ok ms ->
     ms = (List.filter (is_field "vehicleNumber") ms ++
           List.filter (is_field "containerNumber") ms)%list /\
     (length (List.filter (is_field "vehicleNumber") ms) <= 1)%nat /\
     (length (List.filter (is_field "containerNumber") ms) <= 1)%nat) /\
  (forall ms,
     V1.mismatches client soapData = Ok ms ->
     ms = (List.filter (is_field "permitNumber") ms ++
           List.filter (is_field "containerNumber") ms)%list /\
     (length (List.filter (is_field "permitNumber") ms) <= 1)%nat /\
     (length (List.filter (is_field "containerNumber") ms) <= 1)%nat).
Proof.
  split; intros ms Hms.
  - destruct (V2_mismatches_split _ _ _ Hms) as (r & m1 & m2 & _ & H1 & H2 & ->).
    destruct (V2_vehicle_check_fields _ _ _ H1) as (Hv1 & Hc1 & _).
    destruct (V2_container_check_fields _ _ _ _ H2) as (Hc2 & Hv2 & _).
    rewrite !List.filter_app, Hv1, Hv2, Hc1, Hc2, app_nil_r. cbn [app].
    split; [done|].
    assert (length m1 <= 1)%nat.
    { revert H1. unfold V2.vehicle_check.
      destruct (get_prop client "vehicleNumber") as [cv|]; [|done].
      destruct (negb (truthy cv)); [by intros [= <-]; cbn; lia|].
      destruct (get_prop soapData "vehicleNumber") as [sv|]; [|done].
      destruct (truthy sv && strict_ne cv sv); intros [= <-]; cbn; lia. }
    assert (length m2 <= 1)%nat.
    { revert H2. unfold V2.container_check.
      destruct r; [|intros [= <-]; cbn; lia].
      destruct (get_prop client "containerNumber") as [cc|]; [|done].
      destruct (truthy cc); [|intros [= <-]; cbn; lia].
      destruct (get_prop soapData "containerNumber") as [sc|]; [|done].
      destruct (truthy sc && strict_ne cc sc); intros [= <-]; cbn; lia. }
    done.
  - destruct (V1_mismatches_split _ _ _ Hms) as (m1 & m2 & H1 & H2 & ->).
    destruct (V1_permit_check_fields _ _ _ H1) as (Hp1 & Hc1 & _).
    destruct (V1_container_check_fields _ _ _ H2) as (Hc2 & Hp2 & _).
    rewrite !List.filter_app, Hp1, Hp2, Hc1, Hc2, app_nil_r. cbn [app].
    split; [done|].
    assert (length m1 <= 1)%nat.
    { revert H1. unfold V1.permit_check.
      destruct (get_prop client "permitNumber") as [cp|]; [|done].
      destruct (get_prop soapData "permitNumber") as [sp|]; [|done].
      destruct (strict_ne cp sp); intros [= <-]; cbn; lia. }
    assert (length m2 <= 1)%nat.
    { revert H2. unfold V1.container_check.
      destruct (get_prop client "containerNumber") as [cc|]; [|done].
      destruct (truthy cc); [|intros [= <-]; cbn; lia].
      destruct (get_prop soapData "containerNumber") as [sc|]; [|done].
      destruct (strict_ne cc sc); intros [= <-]; cbn; lia. }
    done.
Qed.

(** ** The further properties at work on the scenarios *)


Lemma second_variant_effects_follow_status_witness :
  exists r w' l,
    V2.validate Scenario.valid Scenario.request_in Scenario.fresh = (Ok r, w') /\
    effects_since Scenario.fresh w'
    = EWrite "incoming.log.json" (entry_at Scenario.valid 0 Scenario.request_in) :: l.
Proof.
  destruct (second_variant_effects_follow_status Scenario.valid Scenario.request_in
              Scenario.fresh fresh_wf)
    as (r & w' & l & Hrun & Hl & _).
  exists r, w', l. split; [exact Hrun | exact Hl].
Defined.

Lemma first_variant_effects_follow_status_witness :
  exists r w' l,
    V1.validate Scenario.valid Scenario.request_confirmed Scenario.fresh = (Ok r, w') /\
    effects_since Scenario.fresh w'
    = EWrite "incoming.log.json"
        (entry_at Scenario.valid 0 (VObj [("body", Scenario.request_confirmed)])) :: l.
Proof.
  destruct (first_variant_effects_follow_status Scenario.valid
              Scenario.request_confirmed Scenario.fresh fresh_wf)
    as (r & w' & l & Hrun & Hl & _).
  exists r, w', l. split; [exact Hrun | exact Hl].
Defined.

Lemma request_logs_one_outcome_witness :
  exists r w' e0,
    V2.validate Scenario.valid Scenario.request_out Scenario.fresh = (Ok r, w') /\
    history "incoming.log.json" w'
    = (history "incoming.log.json" Scenario.fresh ++ [e0])%list.
Proof.
  destruct (request_logs_one_outcome Scenario.valid Scenario.request_out
              Scenario.fresh fresh_wf)
    as [(r & w' & e0 & e & Hrun & Hin & _) _].
  exists r, w', e0. split; [exact Hrun | exact Hin].
Defined.

Lemma authority_failure_is_internal_error_witness :
  let down := Scenario.world_env (fun _ => Throw (RequestError "connect ETIMEDOUT")) in
  let err := RequestError "connect ETIMEDOUT" in
  (exists w',
     V2.validate down Scenario.request_in Scenario.fresh = (Ok (error_response err), w')) /\
  (exists w',
     V1.validate down Scenario.request_in Scenario.fresh = (Ok (error_response err), w')).
Proof.
  intros down err.
  destruct (authority_failure_is_internal_error down Scenario.request_in
              (VStr "PMA1001") err Scenario.fresh fresh_wf eq_refl) as [H2 [H1 _]].
  split.
  - destruct (H2 (or_introl eq_refl)) as (w' & Hrun & _). exists w'. exact Hrun.
  - destruct (H1 VUndefined eq_refl ltac:(discriminate) (or_introl eq_refl))
      as (w' & Hrun & _).
    exists w'. exact Hrun.
Defined.

Lemma request_without_body_is_rejected_witness :
  exists r w',
    V2.validate Scenario.valid VUndefined Scenario.fresh = (Ok r, w') /\
    status r = 500 /\
    body r
    = VObj [("error",
             VStr "Cannot read properties of undefined (reading 'permitNumber')")].
Proof.
  destruct (request_without_body_is_rejected Scenario.valid VUndefined
              Scenario.fresh fresh_wf (or_introl eq_refl))
    as [(r & w' & Hrun & _ & Hst & Hbody & _) _].
  exists r, w'. split; [exact Hrun|]. split; [exact Hst | exact Hbody].
Defined.

Lemma reconciliation_fails_on_non_strings_witness :
  exists ms, V1.mismatches Scenario.request_in Scenario.record_in = Ok ms.
Proof.
  exact (proj2 (reconciliation_fails_on_non_strings
                  [("permitNumber", VStr "PMA1001"); ("gateType", VStr "GATE_IN");
                   ("vehicleNumber", VStr "MH12AB1234")]
                  [("permitNumber", VStr "PMA1001"); ("containerNumber", VUndefined);
                   ("vehicleNumber", VStr "MH12AB1234");
                   ("isPermitValidTill", VStr "2999-12-31T00:00:00Z")]
                  (VStr "PMA1001") (VStr "GATE_IN") eq_refl eq_refl)).
Defined.

Lemma expired_exactly_when_past_or_falsy_witness :
  exists r w',
    V2.validate Scenario.lapsed Scenario.request_in Scenario.fresh = (Ok r, w').
Proof.
  destruct (expired_exactly_when_past_or_falsy Scenario.lapsed Scenario.request_in
              (VStr "PMA1001")
              (Scenario.record2 (VStr "1999-12-31T00:00:00Z") (VStr "PMA1001"))
              (VStr "1999-12-31T00:00:00Z") Scenario.fresh
              fresh_wf eq_refl eq_refl eq_refl)
    as (r & w' & Hrun & _).
  exists r, w'. exact Hrun.
Defined.

Lemma agreeing_request_has_no_mismatch_witness :
  let client :=
    VObj [("permitNumber", VStr "PMD2002"); ("gateType", VStr "GATE_OUT");
          ("vehicleNumber", VStr "MH12AB1234");
          ("containerNumber", VStr "CONT0000002")] in
  V2.mismatches client Scenario.record_out = Ok [] /\
  V1.mismatches client Scenario.record_out = Ok [].
Proof.
  intros client.
  destruct (agreeing_request_has_no_mismatch client Scenario.record_out
              "CONT0000002" eq_refl eq_refl) as [H2 H1].
  split; [reflexivity|]. exact (H1 "PMD2002" eq_refl eq_refl).
Defined.

Lemma container_policy_table_witness :
  V2.policy Scenario.request_out = Ok true /\
  V2.policy Scenario.request_dotless = Ok true.
Proof.
  split.
  - destruct (container_policy_table Scenario.request_out (VStr "PMD2002")
                (VStr "gate_out") eq_refl eq_refl) as [Htable _].
    apply Htable. exists "PMD2002", "gate_out". split; [reflexivity|].
    split; [reflexivity|]. right. split; [reflexivity|]. left. reflexivity.
  - destruct (container_policy_table Scenario.request_dotless (VStr "PMA1001")
                (VStr ("gate_" +:+
                       String (ascii_of_nat 196) (String (ascii_of_nat 177) "n")))
                eq_refl eq_refl) as [Htable _].
    apply Htable. eexists _, _. split; [reflexivity|].
    split; [reflexivity|]. left. split; reflexivity.
Defined.

Lemma writeLog_needs_an_array_or_nothing_witness :
  exists w',
    writeLog Scenario.valid "matched.log.json" (VObj []) Scenario.fresh = (Ok tt, w').
Proof.
  apply (proj1 (writeLog_needs_an_array_or_nothing Scenario.valid
                  "matched.log.json" (VObj []) Scenario.fresh)).
  exact I.
Defined.

Lemma unreadable_history_is_reset_witness :
  let w := {| files := {["matched.log.json" := FGarbage]}; ticks := 0; trace := [] |} in
  readLog "matched.log.json" w = (Ok (VArr []), w).
Proof.
  intros w.
  exact (proj1 (unreadable_history_is_reset Scenario.valid "matched.log.json"
                  (VObj []) w (or_intror (or_intror eq_refl)))).
Defined.

Lemma writeLog_touches_one_file_witness :
  let out := writeLog Scenario.valid "matched.log.json" (VObj []) Scenario.fresh in
  files (snd out) !! "invalid.log.json" = files Scenario.fresh !! "invalid.log.json".
Proof.
  intros out.
  exact (proj1 (writeLog_touches_one_file Scenario.valid "matched.log.json" (VObj [])
                  Scenario.fresh (fst out) (snd out) "invalid.log.json"
                  (surjective_pairing out) ltac:(discriminate))).
Defined.

Lemma query_route_reports_history_witness :
  let calls := [("matched.log.json", VObj [("source", VStr "soap")]);
                ("invalid.log.json", VObj [("reason", VStr "PERMIT_EXPIRED")])] in
  exists w' body,
    writeLogs Scenario.valid calls Scenario.fresh = (Ok tt, w') /\
    get_matched w' = (Ok (json body), w').
Proof.
  intros calls.
  destruct (query_route_reports_history Scenario.valid calls Scenario.fresh
              "matched.log.json" fresh_wf) as [(w' & Hrun & Hfetch) _].
  exists w'. eexists. split; [exact Hrun | exact Hfetch].
Defined.

Lemma query_routes_after_request_witness :
  exists r w' body,
    V2.validate Scenario.valid Scenario.request_out Scenario.fresh = (Ok r, w') /\
    get_mismatch w' = (Ok (json body), w').
Proof.
  destruct (query_routes_after_request Scenario.valid Scenario.request_out
              Scenario.fresh fresh_wf) as [(r & w' & Hrun & _ & Hmis & _) _].
  exists r, w'. eexists. split; [exact Hrun | exact Hmis].
Defined.

Lemma normalizer_finds_record_witness :
  exists record,
    V2.parseSoapResponse
      (Scenario.reply [("tns:PermitNumber", VStr "PMA1001");
                       ("tns:IsPermitValid", VStr "2999-12-31T00:00:00Z")])
    = Ok record.
Proof.
  eexists.
  exact (proj1 (normalizer_finds_record "env:Envelope" "env:Body"
                  [("$", VObj [("xmlns:env",
                                VStr "http://schemas.xmlsoap.org/soap/envelope/")]);
                   ("env:Header", VStr EmptyString)]
                  []
                  [("tns:PermitNumber", VStr "PMA1001");
                   ("tns:IsPermitValid", VStr "2999-12-31T00:00:00Z")]
                  eq_refl eq_refl
                  ltac:(repeat constructor))).
Defined.

Lemma normalizer_accepts_empty_record_witness :
  let doc :=
    VObj [("env:Envelope",
           VObj [("env:Body",
                  VObj [("EmptyTrailerOutput",
                         VObj [("tns:PermitDTLS", VStr EmptyString)])])])] in
  exists record w',
    V2.validate (Scenario.world_env (fun _ => Ok doc)) Scenario.request_in Scenario.fresh
    = (Ok (invalid_response "PERMIT_EXPIRED" record), w').
Proof.
  intros doc.
  destruct (normalizer_accepts_empty_record doc) as (_ & _ & H).
  destruct (H (VStr EmptyString) (Scenario.world_env (fun _ => Ok doc))
              Scenario.request_in (VStr "PMA1001") Scenario.fresh eq_refl
              ltac:(discriminate) ltac:(discriminate) ltac:(discriminate))
    as [_ Hrun].
  destruct (Hrun fresh_wf eq_refl eq_refl) as (w' & Hw).
  eexists. exists w'. exact Hw.
Defined.

Lemma non_string_permit_fails_after_lookup_witness :
  let client := VObj [("permitNumber", VNum 1001);
                      ("vehicleNumber", VStr "MH12AB1234")] in
  exists w',
    V2.validate Scenario.valid client Scenario.fresh
    = (Ok (error_response (TypeError "permit.substring is not a function")), w').
Proof.
  intros client.
  assert (Hd : forall t,
             date_value Scenario.valid (VStr "2999-12-31T00:00:00Z") = Some t ->
             clock Scenario.valid 1 <= t).
  { intros t Ht. injection Ht as <-. vm_compute. discriminate. }
  destruct (non_string_permit_fails_after_lookup Scenario.valid client (VNum 1001)
              (Scenario.record2 (VStr "2999-12-31T00:00:00Z") (VNum 1001))
              (VStr "2999-12-31T00:00:00Z") Scenario.fresh
              fresh_wf eq_refl eq_refl ltac:(discriminate) eq_refl eq_refl eq_refl Hd)
    as (w' & Hrun & _).
  exists w'. exact Hrun.
Defined.

Lemma mismatch_list_shape_witness :
  (length (List.filter (is_field "containerNumber")
             [detail "containerNumber" (VStr "CONT0000001") (VStr "CONT0000002")])
   <= 1)%nat.
Proof.
  destruct (mismatch_list_shape Scenario.request_out Scenario.record_out) as [H2 _].
  exact (proj2 (proj2 (H2 _ eq_refl))).
Defined.

(** * The reconciliation stage seen from the handlers *)

(** ** The decision *)

Lemma V2_mismatches_completes client sps cp g :
  get_prop client "permitNumber" = Ok cp ->
  truthy cp = false \/ (exists s, cp = VStr s) ->
  get_prop client "gateType" = Ok g ->
  truthy g = false \/ (exists s, g = VStr s) ->
  exists ms, V2.mismatches client (VObj sps) = Ok ms.
Proof.
  intros Hcp Hs Hg Hgs.
  destruct (V2.policy client) as [require|err] eqn:Hpol.
  - destruct (get_prop_defined _ _ _ "vehicleNumber" Hcp) as [cv Hcv].
    destruct (get_prop_defined _ _ _ "containerNumber" Hcp) as [cc Hcc].
    unfold V2.mismatches, V2.vehicle_check, V2.container_check.
    rewrite Hpol, Hcv, Hcc. cbn.
    repeat match goal with
           | |- context [if ?b then _ else _] => destruct b; cbn
           end; eauto.
  - exfalso.
    destruct (proj1 (policy_throws client cp g Hcp Hg) (ex_intro _ err Hpol))
      as [[Ht Hn] | [Ht Hn]].
    + destruct Hs as [Hf | [s ->]]; [congruence | by destruct (Hn s)].
    + destruct Hgs as [Hf | [s ->]]; [congruence | by destruct (Hn s)].
Qed.

(** C2 (as amended).  In both variants, once the expiry check has returned
    [false]:
    - when the mismatch list [ms] is computed, the handler answers 200
      exactly when [ms] is empty, and 409 exactly when it is not;
    - on an empty list the response is the matched one ([success: true] and
      the authority record, no mismatch list), and the payload that is
      logged in the matched log, forwarded and emitted as [gate:matched] has
      [source] "soap", the request and the authority record;
    - on a non-empty list the response has [success: false], that list under
      [mismatches] and the authority record, and the payload that is logged
      in the mismatch log and emitted as [gate:mismatch] holds the request,
      the authority record and that list under [mismatches];
    - when the computation of the list throws, nothing is decided: the
      error reaches the [catch] block, which logs it and answers 500.
    In the second variant the list is computed whenever the permit number
    and the gate type are each falsy or a string. *)
Theorem decision_follows_mismatch_list E client soapData v w w1 :
  logs_wf w ->
  get_prop soapData "isPermitValidTill" = Ok v ->
  isPermitExpired E v w = (Ok false, w1) ->
  (forall ms,
     V2.mismatches client soapData = Ok ms ->
     exists r w',
       V2.respond E client soapData w = (Ok r, w') /\
       (status r = 200 <-> ms = []) /\
       (status r = 409 <-> ms <> []) /\
       (ms = [] ->
        let payload := V2.matched_payload client soapData in
        get_prop payload "source" = Ok (VStr "soap") /\
        r = matched_response soapData /\
        w' = emitted (EEmit "gate:matched" payload)
               (forwarded E payload (appended E "matched.log.json" payload w1)) /\
        get_prop payload "client" = Ok client /\
        get_prop payload "soapData" = Ok soapData /\
        get_prop (entry_at E (ticks w1) payload) "source" = Ok (VStr "soap") /\
        get_prop (body r) "success" = Ok (VBool true) /\
        get_prop (body r) "soapData" = Ok soapData /\
        reported r = []) /\
       (ms <> [] ->
        let payload := mismatch_payload client soapData ms in
        r = mismatch_response ms soapData /\
        w' = emitted (EEmit "gate:mismatch" payload)
               (appended E "mismatch.log.json" payload w1) /\
        get_prop payload "mismatches" = Ok (VArr ms) /\
        get_prop payload "client" = Ok client /\
        get_prop payload "soapData" = Ok soapData /\
        get_prop (entry_at E (ticks w1) payload) "mismatches" = Ok (VArr ms) /\
        get_prop (body r) "success" = Ok (VBool false) /\
        get_prop (body r) "mismatches" = Ok (VArr ms) /\
        get_prop (body r) "soapData" = Ok soapData /\
        reported r = ms)) /\
  (forall err,
     V2.mismatches client soapData = Throw err ->
     try_catch (V2.respond E client soapData) (V2.on_error E) w
     = (Ok (error_response err), failed E err w1) /\
     status (error_response err) = 500 /\
     body (error_response err) = VObj [("error", VStr (message err))]) /\
  (forall sps cp g,
     soapData = VObj sps ->
     get_prop client "permitNumber" = Ok cp ->
     truthy cp = false \/ (exists s, cp = VStr s) ->
     get_prop client "gateType" = Ok g ->
     truthy g = false \/ (exists s, g = VStr s) ->
     exists ms, V2.mismatches client soapData = Ok ms) /\
  (forall ms,
     V1.mismatches client soapData = Ok ms ->
     exists r w',
       V1.respond E client soapData w = (Ok r, w') /\
       (status r = 200 <-> ms = []) /\
       (status r = 409 <-> ms <> []) /\
       (ms = [] ->
        let payload :=
          V1.matched_payload "soap" client soapData
            (VStr (iso_string E (clock E (ticks w1)))) in
        get_prop payload "source" = Ok (VStr "soap") /\
        r = matched_response soapData /\
        w' = emitted (EEmit "gate:matched" payload)
               (forwarded E payload
                  (appended E "matched.log.json" payload (ticked w1))) /\
        get_prop payload "client" = Ok client /\
        get_prop payload "soapData" = Ok soapData /\
        get_prop (entry_at E (S (ticks w1)) payload) "source" = Ok (VStr "soap") /\
        get_prop (body r) "success" = Ok (VBool true) /\
        get_prop (body r) "soapData" = Ok soapData /\
        reported r = []) /\
       (ms <> [] ->
        let payload := mismatch_payload client soapData ms in
        r = mismatch_response ms soapData /\
        w' = emitted (EEmit "gate:mismatch" payload)
               (appended E "mismatch.log.json" payload w1) /\
        get_prop payload "mismatches" = Ok (VArr ms) /\
        get_prop payload "client" = Ok client /\
        get_prop payload "soapData" = Ok soapData /\
        get_prop (entry_at E (ticks w1) payload) "mismatches" = Ok (VArr ms) /\
        get_prop (body r) "success" = Ok (VBool false) /\
        get_prop (body r) "mismatches" = Ok (VArr ms) /\
        get_prop (body r) "soapData" = Ok soapData /\
        reported r = ms)) /\
  (forall err,
     V1.mismatches client soapData = Throw err ->
     try_catch (V1.respond E client soapData) (V1.on_error E) w
     = (Ok (error_response err), failed E err w1) /\
     status (error_response err) = 500 /\
     body (error_response err) = VObj [("error", VStr (message err))]).
Proof.
  intros Hwf Hv Hexp.
  assert (Hwf1 : logs_wf w1) by eauto using isPermitExpired_wf.
  split; [|split; [|split; [|split]]].
  - intros ms Hms.
    rewrite (V2_respond_decided E client soapData v w w1 Hwf Hv ms Hexp Hms).
    destruct ms as [|d ms]; do 2 eexists; (split; [reflexivity|]);
      (split; [done|]); (split; [done|]); split; intros Hne;
      try discriminate Hne; try (by destruct Hne);
      repeat (split; [reflexivity|]); reflexivity.
  - intros err Hms. split; [|done].
    unfold try_catch, V2.respond, bind at 1, lift at 1. rewrite Hv. cbn beta iota.
    unfold bind at 1. rewrite Hexp. cbn beta iota.
    unfold bind at 1, lift at 1. rewrite Hms. cbn beta iota.
    by rewrite V2_on_error_run.
  - intros sps cp g -> Hcp Hs Hg Hgs.
    by apply V2_mismatches_completes with cp g.
  - intros ms Hms.
    rewrite (V1_respond_decided E client soapData v w w1 Hwf Hv ms Hexp Hms).
    destruct ms as [|d ms]; do 2 eexists; (split; [reflexivity|]);
      (split; [done|]); (split; [done|]); split; intros Hne;
      try discriminate Hne; try (by destruct Hne);
      repeat (split; [reflexivity|]); reflexivity.
  - intros err Hms. split; [|done].
    unfold try_catch, V1.respond, bind at 1, lift at 1. rewrite Hv. cbn beta iota.
    unfold bind at 1. rewrite Hexp. cbn beta iota.
    unfold bind at 1, lift at 1. rewrite Hms. cbn beta iota.
    by rewrite V1_on_error_run.
Qed.

(** C2, counterexample: a request of the second variant whose permit number
    is the number 1001.  The authority returns a record that is not expired,
    so the request is in the reconciliation stage; the computation of the
    mismatch list throws, and the request is answered 500: it is neither
    matched nor mismatched, and no event is emitted. *)
Lemma non_string_permit_gets_no_decision :
  let client :=
    VObj [("permitNumber", VNum 1001); ("gateType", VStr "GATE_IN");
          ("vehicleNumber", VStr "MH12AB1234")] in
  let soapData := Scenario.record2 (VStr "2999-12-31T00:00:00Z") (VNum 1001) in
  let run := V2.validate Scenario.valid client Scenario.fresh in
  lookup_with V2.parseSoapResponse Scenario.valid (VNum 1001) = Ok soapData /\
  fst (isPermitExpired Scenario.valid (VStr "2999-12-31T00:00:00Z") Scenario.fresh)
  = Ok false /\
  V2.mismatches client soapData
  = Throw (TypeError "permit.substring is not a function") /\
  fst run = Ok (status_json 500
                  (VObj [("error", VStr "permit.substring is not a function")])) /\
  emitted_events (effects_since Scenario.fresh (snd run)) = [] /\
  forwards (effects_since Scenario.fresh (snd run)) = [] /\
  history "matched.log.json" (snd run) = [] /\
  history "mismatch.log.json" (snd run) = [].
Proof. by vm_compute. Qed.

(** ** Container and vehicle checks *)

Lemma reported_mismatch ms soapData : reported (mismatch_response ms soapData) = ms.
Proof. reflexivity. Qed.

Lemma reported_matched soapData : reported (matched_response soapData) = [].
Proof. reflexivity. Qed.

Lemma reported_invalid type soapData : reported (invalid_response type soapData) = [].
Proof. reflexivity. Qed.

Lemma reported_error err : reported (error_response err) = [].
Proof. reflexivity. Qed.

Lemma reported_manual : reported V1.manual_response = [].
Proof. reflexivity. Qed.

(** No request to the first variant gets as far as a mismatch list: every
    looked-up record is expired there. *)
Lemma V1_reports_no_mismatch E client w :
  logs_wf w ->
  exists r w',
    V1.validate E client w = (Ok r, w') /\
    reported r = [] /\
    status r <> 409 /\
    (status r = 200 -> get_prop client "confirmedByUser" = Ok (VBool true)).
Proof.
  intros Hwf.
  destruct (V1_validate_outcome E client w Hwf) as (r & w' & Hrun & Hout).
  exists r, w'. split; [done|].
  destruct Hout; repeat split; try done.
Qed.

Lemma V2_vehicle_check_other client soapData m d :
  V2.vehicle_check client soapData = Ok m ->
  d ∈ m -> is_field "containerNumber" d = false.
Proof.
  unfold V2.vehicle_check.
  destruct (get_prop client "vehicleNumber") as [cv|]; [|done].
  destruct (truthy cv); cbn [negb].
  - destruct (get_prop soapData "vehicleNumber") as [sv|]; [|done].
    destruct (truthy sv && strict_ne cv sv); intros [= <-].
    + by intros ->%list_elem_of_singleton.
    + by intros ?%elem_of_nil.
  - intros [= <-]. by intros ->%list_elem_of_singleton.
Qed.

Lemma V2_container_check_detail require client soapData m d :
  V2.container_check require client soapData = Ok m ->
  d ∈ m ->
  require = true /\
  exists cc sc,
    get_prop client "containerNumber" = Ok cc /\
    get_prop soapData "containerNumber" = Ok sc /\
    truthy cc = true /\ truthy sc = true /\ strict_ne cc sc = true /\
    d = detail "containerNumber" cc sc.
Proof.
  unfold V2.container_check.
  destruct require; [|by intros [= <-] ?%elem_of_nil].
  destruct (get_prop client "containerNumber") as [cc|]; [|done].
  destruct (truthy cc) eqn:Hcc; [|by intros [= <-] ?%elem_of_nil].
  destruct (get_prop soapData "containerNumber") as [sc|]; [|done].
  destruct (truthy sc) eqn:Hsc; cbn [andb]; [|by intros [= <-] ?%elem_of_nil].
  destruct (strict_ne cc sc) eqn:Hne; [|by intros [= <-] ?%elem_of_nil].
  intros [= <-] ->%list_elem_of_singleton. split; [done|]. by exists cc, sc.
Qed.

Lemma V2_policy_spec client require :
  V2.policy client = Ok require ->
  exists cp g permit gate,
    get_prop client "permitNumber" = Ok cp /\
    get_prop client "gateType" = Ok g /\
    js_or cp (VStr EmptyString) = VStr permit /\
    js_or g (VStr EmptyString) = VStr gate /\
    require = V2.requireContainer (toUpperCase gate) (String.substring 0 3 permit).
Proof.
  unfold V2.policy.
  destruct (get_prop client "permitNumber") as [cp|]; [|done].
  destruct (js_or cp (VStr EmptyString)) as [ | | | |permit| | ] eqn:Hcp; try done.
  cbn [string_method].
  destruct (get_prop client "gateType") as [g|]; [|done].
  destruct (js_or g (VStr EmptyString)) as [ | | | |gate| | ] eqn:Hg; try done.
  cbn [string_method]. intros [= <-]. by exists cp, g, permit, gate.
Qed.

(** C3.  The container number is compared only under the policy and only
    when both sides have one.
    - The policy of a request is [requireContainer] on the upper case of
      its gate type and the first three characters of its permit number
      (each the empty string when falsy); it holds exactly for GATE_IN with
      PMA and for GATE_OUT with PMD or GPC.
    - In the second variant's mismatch computation the container details of
      the list are exactly: one detail when the policy requires the check
      for this request and both container numbers are truthy and differ,
      none otherwise; in particular none when the policy does not require
      the check, whatever the two values are.
    - Through the second variant's handler: a containerNumber detail in the
      mismatch list of a response is there only if the policy holds for the
      request, the request and the looked-up authority record both have a
      truthy container number, and the two differ.
    - Through the first variant's handler no response carries a mismatch
      list and none has status 409: no request is in the reconciliation
      stage there. *)
Theorem container_check_follows_policy E client w :
  logs_wf w ->
  (forall soapData cc sc ms require,
     get_prop client "containerNumber" = Ok cc ->
     get_prop soapData "containerNumber" = Ok sc ->
     V2.policy client = Ok require ->
     V2.mismatches client soapData = Ok ms ->
     List.filter (is_field "containerNumber") ms
     = if require && truthy cc && truthy sc && strict_ne cc sc
       then [detail "containerNumber" cc sc] else []) /\
  (forall require,
     V2.policy client = Ok require ->
     exists cp g permit gate,
       get_prop client "permitNumber" = Ok cp /\
       get_prop client "gateType" = Ok g /\
       js_or cp (VStr EmptyString) = VStr permit /\
       js_or g (VStr EmptyString) = VStr gate /\
       require = V2.requireContainer (toUpperCase gate) (String.substring 0 3 permit)) /\
  (forall gate prefix,
     V2.requireContainer gate prefix = true <->
     (gate = "GATE_IN" /\ prefix = "PMA") \/
     (gate = "GATE_OUT" /\ (prefix = "PMD" \/ prefix = "GPC"))) /\
  (exists r w',
     V2.validate E client w = (Ok r, w') /\
     forall d,
       d ∈ reported r -> is_field "containerNumber" d = true ->
       exists p soapData cc sc,
         get_prop client "permitNumber" = Ok p /\
         lookup_with V2.parseSoapResponse E p = Ok soapData /\
         get_prop (body r) "soapData" = Ok soapData /\
         V2.policy client = Ok true /\
         get_prop client "containerNumber" = Ok cc /\
         get_prop soapData "containerNumber" = Ok sc /\
         truthy cc = true /\ truthy sc = true /\ strict_ne cc sc = true /\
         d = detail "containerNumber" cc sc) /\
  (exists r w',
     V1.validate E client w = (Ok r, w') /\
     reported r = [] /\
     status r <> 409 /\
     (status r = 200 -> get_prop client "confirmedByUser" = Ok (VBool true))).
Proof.
  intros Hwf. split; [|split; [|split; [|split]]].
  - intros soapData cc sc ms require Hcc Hsc Hpol Hms.
    destruct (V2_mismatches_split _ _ _ Hms) as (r & m1 & m2 & Hr & H1 & H2 & ->).
    assert (r = require) as -> by congruence.
    rewrite List.filter_app.
    destruct (V2_vehicle_check_fields _ _ _ H1) as (_ & -> & _).
    destruct (V2_container_check_fields _ _ _ _ H2) as (-> & _).
    by apply V2_container_check_spec with client soapData.
  - apply V2_policy_spec.
  - apply requireContainer_table.
  - destruct (V2_validate_outcome E client w Hwf) as (r & w' & Hrun & Hout).
    exists r, w'. split; [done|]. intros d0 Hin Hfield.
    destruct Hout as [err Hp | p err Hp Hl | p sd v w2 Hp Hl Hv Hexp
                     | p sd v w2 err Hp Hl Hv Hexp Hms
                     | p sd v w2 Hp Hl Hv Hexp Hms
                     | p sd v w2 d ms Hp Hl Hv Hexp Hms];
      try (by apply elem_of_nil in Hin).
    rewrite reported_mismatch in Hin.
    destruct (V2_mismatches_split _ _ _ Hms) as (req & m1 & m2 & Hr & H1 & H2 & Heq).
    rewrite Heq in Hin. apply elem_of_app in Hin as [Hin | Hin].
    + rewrite (V2_vehicle_check_other _ _ _ _ H1 Hin) in Hfield. discriminate.
    + destruct (V2_container_check_detail _ _ _ _ _ H2 Hin)
        as (-> & cc & sc & Hcc & Hsc & Htc & Hts & Hne & ->).
      exists p, sd, cc, sc. by repeat split.
  - by apply V1_reports_no_mismatch.
Qed.

(** C5 (as amended).  The vehicle number, for the requests whose mismatch
    list is computed.
    - In the second variant's mismatch computation the vehicle details of
      the list are exactly: the absence detail when the submitted vehicle
      number is falsy (absent included); otherwise one value detail when the
      authority's vehicle number is truthy and differs, and none when it is
      not.
    - Through the second variant's handler: a request whose permit number
      and gate type are each falsy or a string, whose looked-up record is
      not expired and which has no (truthy) vehicle number is answered 409,
      and the mismatch list of the response has the absence detail as its
      one vehicleNumber detail.
    - Through the first variant's handler no response carries a mismatch
      list and none has status 409: no request is in the reconciliation
      stage there. *)
Theorem vehicle_check_in_second_variant_only E client w :
  logs_wf w ->
  (forall soapData cv sv ms,
     get_prop client "vehicleNumber" = Ok cv ->
     get_prop soapData "vehicleNumber" = Ok sv ->
     V2.mismatches client soapData = Ok ms ->
     List.filter (is_field "vehicleNumber") ms
     = if negb (truthy cv) then [V2.missing_vehicle]
       else if truthy sv && strict_ne cv sv
            then [detail "vehicleNumber" cv sv] else []) /\
  (forall p soapData v g cv,
     get_prop client "permitNumber" = Ok p ->
     truthy p = false \/ (exists s, p = VStr s) ->
     get_prop client "gateType" = Ok g ->
     truthy g = false \/ (exists s, g = VStr s) ->
     lookup_with V2.parseSoapResponse E p = Ok soapData ->
     get_prop soapData "isPermitValidTill" = Ok v ->
     truthy v = true ->
     (forall t, date_value E v = Some t -> clock E (S (ticks w)) <= t) ->
     get_prop client "vehicleNumber" = Ok cv ->
     truthy cv = false ->
     exists r w',
       V2.validate E client w = (Ok r, w') /\
       status r = 409 /\
       List.filter (is_field "vehicleNumber") (reported r) = [V2.missing_vehicle] /\
       get_prop (body r) "mismatches" = Ok (VArr (reported r)) /\
       V2.missing_vehicle
       = VObj [("field", VStr "vehicleNumber");
               ("reason", VStr "Vehicle number missing from validate payload")]) /\
  (exists r w',
     V1.validate E client w = (Ok r, w') /\
     reported r = [] /\
     status r <> 409 /\
     (status r = 200 -> get_prop client "confirmedByUser" = Ok (VBool true))).
Proof.
  intros Hwf. split; [|split].
  - intros soapData cv sv ms Hcv Hsv Hms.
    destruct (V2_mismatches_split _ _ _ Hms) as (r & m1 & m2 & Hr & H1 & H2 & ->).
    rewrite List.filter_app.
    destruct (V2_vehicle_check_fields _ _ _ H1) as (-> & _).
    destruct (V2_container_check_fields _ _ _ _ H2) as (_ & -> & _).
    rewrite app_nil_r. by apply V2_vehicle_check_spec with client soapData.
  - intros p soapData v g cv Hp Hps Hg Hgs Hl Hv Htv Hd Hcv Hfalsy.
    destruct (lookup2_object _ _ _ Hl) as [sps ->].
    destruct (V2_mismatches_completes client sps p g Hp Hps Hg Hgs) as [ms Hms].
    assert (Hveh : List.filter (is_field "vehicleNumber") ms = [V2.missing_vehicle]).
    { destruct (V2_mismatches_split _ _ _ Hms) as (r & m1 & m2 & Hr & H1 & H2 & ->).
      rewrite List.filter_app.
      destruct (V2_vehicle_check_fields _ _ _ H1) as (-> & _).
      destruct (V2_container_check_fields _ _ _ _ H2) as (_ & -> & _).
      rewrite app_nil_r.
      rewrite (V2_vehicle_check_spec client (VObj sps) cv _ m1 Hcv eq_refl H1).
      by rewrite Hfalsy. }
    assert (Hexp : isPermitExpired E v
                     (emitted (ESoap p) (appended E "incoming.log.json" client w))
                   = (Ok false,
                      ticked (emitted (ESoap p)
                                (appended E "incoming.log.json" client w)))).
    { apply isPermitExpired_valid; [done|]. by autorewrite with world. }
    destruct (V2_validate_outcome E client w Hwf) as (r & w' & Hrun & Hout).
    exists r, w'. split; [done|].
    destruct Hout as [err' Hp' | p' err' Hp' Hl' | p' sd v' w2 Hp' Hl' Hv' Hexp'
                     | p' sd v' w2 err' Hp' Hl' Hv' Hexp' Hms'
                     | p' sd v' w2 Hp' Hl' Hv' Hexp' Hms'
                     | p' sd v' w2 d ms' Hp' Hl' Hv' Hexp' Hms'];
      try congruence;
      assert (p' = p) as -> by congruence;
      try congruence;
      assert (sd = VObj sps) as -> by congruence;
      assert (v' = v) as -> by congruence;
      try congruence.
    + rewrite Hms in Hms'. injection Hms' as ->. discriminate.
    + rewrite Hms in Hms'. injection Hms' as ->.
      rewrite reported_mismatch. by repeat split.
  - by apply V1_reports_no_mismatch.
Qed.

(** C5, counterexample: a request of the second variant without a vehicle
    number whose permit number is the number 1001.  The authority returns a
    record that is not expired, so the request is in the reconciliation
    stage; it is answered 500, and no mismatch list and no vehicleNumber
    detail is reported, logged or emitted. *)
Lemma missing_vehicle_unreported_for_non_string_permit :
  let client := VObj [("permitNumber", VNum 1001); ("gateType", VStr "GATE_IN")] in
  let soapData := Scenario.record2 (VStr "2999-12-31T00:00:00Z") (VNum 1001) in
  let run := V2.validate Scenario.valid client Scenario.fresh in
  get_prop client "vehicleNumber" = Ok VUndefined /\
  lookup_with V2.parseSoapResponse Scenario.valid (VNum 1001) = Ok soapData /\
  fst (isPermitExpired Scenario.valid (VStr "2999-12-31T00:00:00Z") Scenario.fresh)
  = Ok false /\
  fst run = Ok (status_json 500
                  (VObj [("error", VStr "permit.substring is not a function")])) /\
  (forall r, fst run = Ok r -> reported r = []) /\
  emitted_events (effects_since Scenario.fresh (snd run)) = [] /\
  history "mismatch.log.json" (snd run) = [].
Proof.
  repeat split; try (by vm_compute).
  intros r. vm_compute. by intros [= <-].
Qed.

(** ** The reconciliation claims at work on the scenarios *)

(** Scenario B: container numbers differ on an outbound PMD permit. *)
Lemma decision_follows_mismatch_list_witness :
  let ms := [detail "containerNumber" (VStr "CONT0000001") (VStr "CONT0000002")] in
  V2.mismatches Scenario.request_out Scenario.record_out = Ok ms /\
  (exists r w',
     V2.respond Scenario.valid Scenario.request_out Scenario.record_out Scenario.fresh
     = (Ok r, w') /\
     status r = 409 /\
     get_prop (body r) "mismatches" = Ok (VArr ms)).
Proof.
  intros ms.
  destruct (decision_follows_mismatch_list Scenario.valid Scenario.request_out
              Scenario.record_out (VStr "2999-12-31T00:00:00Z")
              Scenario.fresh (ticked Scenario.fresh) fresh_wf eq_refl eq_refl)
    as [H2 _].
  split; [reflexivity|].
  destruct (H2 ms eq_refl) as (r & w' & Hrun & _ & Hst & _ & Hne).
  exists r, w'. split; [exact Hrun|].
  split; [apply Hst; discriminate|].
  destruct (Hne ltac:(discriminate)) as (_ & _ & _ & _ & _ & _ & _ & Hbody & _).
  exact Hbody.
Defined.

(** Scenario B through the handler. *)
Lemma container_check_follows_policy_witness :
  exists r w',
    V2.validate Scenario.valid Scenario.request_out Scenario.fresh = (Ok r, w').
Proof.
  destruct (container_check_follows_policy Scenario.valid Scenario.request_out
              Scenario.fresh fresh_wf)
    as (_ & _ & _ & (r & w' & Hrun & _) & _).
  exists r, w'. exact Hrun.
Defined.

(** Scenario D: the request has no vehicle number. *)
Lemma vehicle_check_in_second_variant_only_witness :
  exists r w',
    V2.validate Scenario.valid Scenario.request_no_vehicle Scenario.fresh = (Ok r, w') /\
    status r = 409 /\
    List.filter (is_field "vehicleNumber") (reported r) = [V2.missing_vehicle].
Proof.
  assert (Hd : forall t,
             date_value Scenario.valid (VStr "2999-12-31T00:00:00Z") = Some t ->
             clock Scenario.valid 1 <= t).
  { intros t Ht. injection Ht as <-. vm_compute. discriminate. }
  destruct (vehicle_check_in_second_variant_only Scenario.valid
              Scenario.request_no_vehicle Scenario.fresh fresh_wf)
    as (_ & Hhandler & _).
  destruct (Hhandler (VStr "PMA1001")
              (Scenario.record2 (VStr "2999-12-31T00:00:00Z") (VStr "PMA1001"))
              (VStr "2999-12-31T00:00:00Z") (VStr "GATE_IN") VUndefined
              eq_refl (or_intror (ex_intro _ "PMA1001" eq_refl))
              eq_refl (or_intror (ex_intro _ "GATE_IN" eq_refl))
              eq_refl eq_refl eq_refl Hd eq_refl eq_refl)
    as (r & w' & Hrun & Hst & Hveh & _).
  exists r, w'. split; [exact Hrun|]. split; [exact Hst | exact Hveh].
Defined.
